(** * Simple To-Do App: the task model and the controller, embedded in Rocq

    The development follows [js/taskModel.js] (class [TaskModel]) and
    [js/app.js] (class [TodoApp]).  Pure methods become functions; methods
    that read the browser clock take the [World] they run in; the controller
    is a state-passing function on the record [App].

    Conventions.
    - A JavaScript string is a [string] of ASCII characters; [String.length]
      is the [.length] of the source.
    - A slot that may hold [undefined] (a missing property, an omitted
      argument) is an [option string]; [truthy] is the source's [if (x)].
    - A JavaScript number that is an integer (a time value in milliseconds,
      a count, a day difference) is a [Z]; [None] stands for [NaN].  The one
      place where the source leaves the integers, the completion rate of
      [getTaskStats], is computed in IEEE-754 binary64 with [SpecFloat]. *)

From Stdlib Require Import ZArith List Bool Ascii String Lia.
From Stdlib Require Import Permutation Sorted SpecFloat DecimalString.
Import ListNotations.

Open Scope string_scope.
Open Scope list_scope.
Open Scope Z_scope.

(** ** Strings *)

Module JsString.

(** [\s] and the characters removed by [trim], within ASCII:
    TAB, LF, VT, FF, CR and SPACE. *)
Definition is_whitespace (c : ascii) : bool :=
  let n := nat_of_ascii c in
  (((9 <=? n) && (n <=? 13)) || (n =? 32))%nat.

Definition lower_char (c : ascii) : ascii :=
  let n := nat_of_ascii c in
  if ((65 <=? n) && (n <=? 90))%nat then ascii_of_nat (n + 32) else c.

(** [s.toLowerCase()] *)
Fixpoint toLowerCase (s : string) : string :=
  match s with
  | EmptyString => EmptyString
  | String c s' => String (lower_char c) (toLowerCase s')
  end.

Fixpoint trimStart (s : string) : string :=
  match s with
  | EmptyString => EmptyString
  | String c s' => if is_whitespace c then trimStart s' else s
  end.

Fixpoint trimEnd (s : string) : string :=
  match s with
  | EmptyString => EmptyString
  | String c s' =>
      match trimEnd s' with
      | EmptyString =>
          if is_whitespace c then EmptyString else String c EmptyString
      | r => String c r
      end
  end.

(** [s.trim()] *)
Definition trim (s : string) : string := trimEnd (trimStart s).

(** [s.startsWith(p)] *)
Fixpoint startsWith (s p : string) {struct p} : bool :=
  match p with
  | EmptyString => true
  | String a p' =>
      match s with
      | EmptyString => false
      | String b s' => Ascii.eqb a b && startsWith s' p'
      end
  end.

(** [s.split(/\s+/)]: the pieces between maximal runs of whitespace.  A
    run at either end leaves an empty piece there, and the empty string
    splits into one empty piece.  [cur] is the piece being read and
    [in_run] tells that the previous character was whitespace. *)
Fixpoint split_from (s cur : string) (in_run : bool) : list string :=
  match s with
  | EmptyString => [cur]
  | String c s' =>
      if is_whitespace c then
        if in_run then split_from s' cur true
        else cur :: split_from s' EmptyString true
      else split_from s' (cur ++ String c EmptyString)%string false
  end.

Definition split_ws (s : string) : list string :=
  split_from s EmptyString false.

(** [arr.join(sep)] *)
Definition join (sep : string) (arr : list string) : string :=
  String.concat sep arr.

(** [String(n)] for an integer [n]; [None] is [NaN]. *)
Definition ofNumber (n : option Z) : string :=
  match n with
  | None => "NaN"
  | Some z => NilZero.string_of_int (Z.to_int z)
  end.

(** The digits of [n.toString(36)], least significant first in [acc]. *)
Definition digit36 (d : Z) : ascii :=
  if d <? 10 then ascii_of_nat (48 + Z.to_nat d)
  else ascii_of_nat (87 + Z.to_nat d).

Fixpoint toString36_from (fuel : nat) (n : Z) (acc : string) : string :=
  match fuel with
  | O => acc
  | S fuel' =>
      let acc' := String (digit36 (n mod 36)) acc in
      if n / 36 =? 0 then acc' else toString36_from fuel' (n / 36) acc'
  end.

(** [n.toString(36)] for an integer [n >= 0]. *)
Definition toString36 (n : Z) : string :=
  toString36_from (S (Z.to_nat (Z.log2 n))) n EmptyString.

End JsString.
Import JsString.

(** [if (x)] on a string, and on a slot that may be [undefined]. *)
Definition truthy_string (s : string) : bool := negb (s =? "")%string.

Definition truthy (x : option string) : bool :=
  match x with
  | None => false
  | Some s => truthy_string s
  end.

(** ** The host: [Date] and the world a call runs in *)

(** What the source takes from the built-in [Date].  [Date_parse s] is
    [new Date(s).getTime()], with [None] for an invalid date. *)
Class DateRuntime := {
  Date_parse : string -> option Z;
  Date_toISOString : Z -> string;
  (** [toLocaleDateString('en-US', {year:'numeric', month:'short',
      day:'numeric'})] in the host's time zone *)
  Date_toLocaleDateString : option Z -> string
}.

(** The ambient state a call can observe: the reading of the system clock
    ([new Date()], [Date.now()]), the digits [Math.random()] contributes to
    an identifier, and whether [localStorage] accepts a write.  One call of
    a [TaskModel] method is taken to be instantaneous. *)
Record World := {
  clock : Z;
  entropy : string;
  storage_writable : bool
}.

(** ** The task record *)

Inductive Priority := Overdue | High | Medium | Low.

Definition Priority_eqb (p q : Priority) : bool :=
  match p, q with
  | Overdue, Overdue | High, High | Medium, Medium | Low, Low => true
  | _, _ => false
  end.

Record Task := mkTask {
  id : string;
  text : string;
  completed : bool;
  dueDate : string;
  tags : list string;
  createdAt : string;
  priority : Priority
}.

(** The object handed to [validateTask]: any property may be missing. *)
Record TaskData := {
  data_text : option string;
  data_dueDate : option string;
  data_tags : option string
}.

Record Validation := {
  isValid : bool;
  errors : list string
}.

Record DueDateStatus := {
  status_class : string;
  status_text : string
}.

Record TaskStats := {
  stats_total : Z;
  stats_completed : Z;
  stats_pending : Z;
  stats_overdue : Z;
  stats_completionRate : Z
}.

(** ** Numbers *)

(** Comparisons of a number with an integer constant; every comparison
    with [NaN] is false. *)
Definition num_ltb (x : option Z) (k : Z) : bool :=
  match x with Some v => v <? k | None => false end.

Definition num_leb (x : option Z) (k : Z) : bool :=
  match x with Some v => v <=? k | None => false end.

Definition num_eqb (x : option Z) (k : Z) : bool :=
  match x with Some v => v =? k | None => false end.

Definition num_abs (x : option Z) : option Z := option_map Z.abs x.

Definition MS_PER_DAY : Z := 1000 * 60 * 60 * 24.

(** [Math.ceil(a / b)] for integers [a] and [b > 0].  The source divides in
    binary64; the quotient is within one part in 2^53 of the exact one, so
    its ceiling is the exact ceiling as long as the two instants are less
    than 2^27 days apart, which covers every valid [Date] for a clock within
    a few thousand centuries of the epoch. *)
Definition ceil_div (a b : Z) : Z := - ((- a) / b).

(** Binary64 arithmetic, for the one quotient that is not an integer. *)
Definition Number_ofZ (n : Z) : spec_float := binary_normalize 53 1024 n 0 false.
Definition Number_div : spec_float -> spec_float -> spec_float := SFdiv 53 1024.
Definition Number_mul : spec_float -> spec_float -> spec_float := SFmul 53 1024.

(** [Math.round(x)]: the integer nearest to [x], a tie going up. *)
Definition Math_round (x : spec_float) : Z :=
  match x with
  | S754_finite s m e =>
      let n := if s then Z.neg m else Z.pos m in
      if 0 <=? e then n * 2 ^ e
      else (2 * n + 2 ^ (- e)) / 2 ^ (- e + 1)
  | _ => 0
  end.

(** ** Arrays *)

(** [arr.indexOf(x)]: the first index holding [x], or [-1]. *)
Fixpoint indexOf_from (arr : list string) (x : string) (i : Z) : Z :=
  match arr with
  | [] => -1
  | y :: rest => if (y =? x)%string then i else indexOf_from rest x (i + 1)
  end.

Definition indexOf (arr : list string) (x : string) : Z := indexOf_from arr x 0.

(** [arr.filter((x, index) => f(x, index))] *)
Fixpoint filter_from {A : Type} (f : A -> Z -> bool) (arr : list A) (i : Z) : list A :=
  match arr with
  | [] => []
  | x :: rest =>
      if f x i then x :: filter_from f rest (i + 1) else filter_from f rest (i + 1)
  end.

Definition filter_indexed {A : Type} (f : A -> Z -> bool) (arr : list A) : list A :=
  filter_from f arr 0.

(** [Array.prototype.sort(comparefn)].  A comparator answers with a number,
    [None] being [NaN]; [SortCompare] reads [NaN] as [+0].  The standard
    requires the sort to be stable and leaves the order to the engine only
    when the comparator is not consistent.  The sort is taken here as the
    stable insertion sort; on a consistent comparator every stable sort
    gives the same array ([js_sort_canonical] below).  [comes_after cmp x y]
    says that the comparator puts [x] behind [y]. *)
Definition SortCompare {A : Type} (cmp : A -> A -> option Z) (x y : A) : Z :=
  match cmp x y with
  | None => 0
  | Some v => v
  end.

Definition comes_after {A : Type} (cmp : A -> A -> option Z) (x y : A) : bool :=
  0 <? SortCompare cmp x y.

(** [x] may stand before [y]: the comparator does not put it behind. *)
Definition not_after {A : Type} (cmp : A -> A -> option Z) (x y : A) : Prop :=
  comes_after cmp x y = false.

(** The comparator puts neither of [x] and [y] behind the other. *)
Definition tied {A : Type} (cmp : A -> A -> option Z) (x y : A) : bool :=
  negb (comes_after cmp x y) && negb (comes_after cmp y x).

Fixpoint sort_insert {A : Type} (cmp : A -> A -> option Z) (x : A) (l : list A) : list A :=
  match l with
  | [] => [x]
  | y :: l' =>
      if comes_after cmp x y then y :: sort_insert cmp x l' else x :: y :: l'
  end.

Fixpoint js_sort {A : Type} (cmp : A -> A -> option Z) (l : list A) : list A :=
  match l with
  | [] => []
  | x :: l' => sort_insert cmp x (js_sort cmp l')
  end.

(** [sort()] without a comparator, on strings: code-unit order. *)
Definition default_compare (x y : string) : option Z :=
  match String.compare x y with
  | Lt => Some (-1)
  | Eq => Some 0
  | Gt => Some 1
  end.

(** [[...new Set(arr)]]: the distinct elements in order of first appearance. *)
Fixpoint Set_values (arr : list string) : list string :=
  match arr with
  | [] => []
  | x :: rest => x :: filter (fun y => negb (y =? x)%string) (Set_values rest)
  end.

(** ** [TaskModel] *)

Section TaskModel.

Context `{DR : DateRuntime}.

(** [generateId]: [Date.now().toString(36) + Math.random().toString(36).substr(2)] *)
Definition generateId (w : World) : string :=
  (toString36 (clock w) ++ entropy w)%string.

Definition parseTags (tagsString : option string) : list string :=
  match tagsString with
  | None => []
  | Some s =>
      if negb (truthy_string s) then []
      else
        let arr :=
          map toLowerCase (filter (fun tag => startsWith tag "#") (split_ws s)) in
        filter_indexed (fun tag index => indexOf arr tag =? index) arr
  end.

(** [Math.ceil((due.getTime() - today.getTime()) / (1000 * 60 * 60 * 24))] *)
Definition diffDays (dueDate : string) (w : World) : option Z :=
  match Date_parse dueDate with
  | None => None
  | Some due => Some (ceil_div (due - clock w) MS_PER_DAY)
  end.

Definition calculatePriority (dueDate : option string) (w : World) : Priority :=
  match dueDate with
  | None => Low
  | Some d =>
      if negb (truthy_string d) then Low
      else
        let diff := diffDays d w in
        if num_ltb diff 0 then Overdue
        else if num_leb diff 1 then High
        else if num_leb diff 3 then Medium
        else Low
  end.

Definition getDueDateStatus (dueDate : option string) (w : World) : DueDateStatus :=
  match dueDate with
  | None => {| status_class := ""; status_text := "" |}
  | Some d =>
      if negb (truthy_string d) then {| status_class := ""; status_text := "" |}
      else
        let diff := diffDays d w in
        if num_ltb diff 0 then
          {| status_class := "overdue";
             status_text :=
               ("Overdue by " ++ ofNumber (num_abs diff) ++ " day"
                  ++ (if negb (num_eqb (num_abs diff) 1) then "s" else ""))%string |}
        else if num_eqb diff 0 then
          {| status_class := "due-soon"; status_text := "Due today" |}
        else if num_eqb diff 1 then
          {| status_class := "due-soon"; status_text := "Due tomorrow" |}
        else if num_leb diff 3 then
          {| status_class := "due-soon";
             status_text := ("Due in " ++ ofNumber diff ++ " days")%string |}
        else
          {| status_class := "";
             status_text := ("Due " ++ ofNumber diff ++ " days")%string |}
  end.

(** [formatDate] never consults the clock; it takes the world only
    because every method runs in one. *)
Definition formatDate (dateString : option string) (w : World) : string :=
  match dateString with
  | None => ""
  | Some d =>
      if negb (truthy_string d) then ""
      else Date_toLocaleDateString (Date_parse d)
  end.

Definition createTask (text : string) (dueDate tags : option string) (w : World) : Task :=
  let dueDate := match dueDate with None => "" | Some d => d end in
  let tags := match tags with None => "" | Some t => t end in
  {| id := generateId w;
     text := trim text;
     completed := false;
     dueDate := dueDate;
     tags := parseTags (Some tags);
     createdAt := Date_toISOString (clock w);
     priority := calculatePriority (Some dueDate) w |}.

Definition validateTask (taskData : TaskData) : Validation :=
  let errors := [] in
  let errors :=
    if negb (truthy (data_text taskData))
       || (match data_text taskData with
           | Some t => (String.length (trim t) =? 0)%nat
           | None => false
           end)
    then errors ++ ["Task text is required"] else errors in
  let errors :=
    if truthy (data_text taskData)
       && (match data_text taskData with
           | Some t => (500 <? String.length (trim t))%nat
           | None => false
           end)
    then errors ++ ["Task text must be less than 500 characters"] else errors in
  let errors :=
    match data_dueDate taskData with
    | Some d =>
        if truthy_string d then
          match Date_parse d with
          | None => errors ++ ["Invalid due date format"]
          | Some _ => errors
          end
        else errors
    | None => errors
    end in
  let errors :=
    if truthy (data_tags taskData)
       && (match data_tags taskData with
           | Some t => (10 <? String.length t)%nat
           | None => false
           end)
    then errors ++ ["Maximum 10 tags allowed"] else errors in
  {| isValid := (List.length errors =? 0)%nat; errors := errors |}.

(** [new Date(a) - new Date(b)] *)
Definition date_minus (a b : string) : option Z :=
  match Date_parse a, Date_parse b with
  | Some x, Some y => Some (x - y)
  | _, _ => None
  end.

Definition compare_dueDate (a b : Task) : option Z :=
  if negb (truthy_string (dueDate a)) && negb (truthy_string (dueDate b)) then Some 0
  else if negb (truthy_string (dueDate a)) then Some 1
  else if negb (truthy_string (dueDate b)) then Some (-1)
  else date_minus (dueDate a) (dueDate b).

Definition priorityOrder (p : Priority) : Z :=
  match p with
  | Overdue => 0
  | High => 1
  | Medium => 2
  | Low => 3
  end.

Definition compare_priority (a b : Task) : option Z :=
  Some (priorityOrder (priority a) - priorityOrder (priority b)).

Definition compare_created (a b : Task) : option Z :=
  date_minus (createdAt b) (createdAt a).

(** The comparator chosen by the [switch] of [sortTasks]. *)
Definition sort_comparator (sortBy : string) : Task -> Task -> option Z :=
  if (sortBy =? "dueDate")%string then compare_dueDate
  else if (sortBy =? "priority")%string then compare_priority
  else compare_created.

(** [sortTasks], as a function of the contents of the array. *)
Definition sortTasks (tasks : list Task) (sortBy : string) : list Task :=
  let sortedTasks := tasks in
  js_sort (sort_comparator sortBy) sortedTasks.

Definition tag_matches (tagFilter : string) (task : Task) : bool :=
  existsb (fun tag => (toLowerCase tag =? toLowerCase tagFilter)%string) (tags task).

Definition filterTasksByTag (tasks : list Task) (tagFilter : option string) : list Task :=
  match tagFilter with
  | None => tasks
  | Some f =>
      if negb (truthy_string f) then tasks
      else filter (tag_matches f) tasks
  end.

Definition getAllTags (tasks : list Task) : list string :=
  let allTags := flat_map tags tasks in
  js_sort default_compare (Set_values allTags).

Definition is_overdue (w : World) (task : Task) : bool :=
  truthy_string (dueDate task) && negb (completed task)
  && num_ltb (Date_parse (dueDate task)) (clock w).

Definition getTaskStats (tasks : list Task) (w : World) : TaskStats :=
  let total := Z.of_nat (List.length tasks) in
  let completed := Z.of_nat (List.length (filter completed tasks)) in
  let pending := total - completed in
  let overdue := Z.of_nat (List.length (filter (is_overdue w) tasks)) in
  {| stats_total := total;
     stats_completed := completed;
     stats_pending := pending;
     stats_overdue := overdue;
     stats_completionRate :=
       if 0 <? total
       then Math_round
              (Number_mul (Number_div (Number_ofZ completed) (Number_ofZ total))
                          (Number_ofZ 100))
       else 0 |}.

End TaskModel.

(** ** Arrays as objects

    [sortTasks] and [filterTasksByTag] receive and return arrays, which are
    objects with an identity.  [ArrayStore] keeps the arrays of tasks in a
    store addressed by reference, so that copying ([[...tasks]],
    [Array.prototype.filter]), sorting in place ([Array.prototype.sort]) and
    handing back the argument itself are told apart.  A reference that the
    store does not hold cannot arise in the source; the functions answer
    [None] on it. *)

Module ArrayStore.

Definition ref := nat.
Definition store := list (list Task).

Definition get (h : store) (r : ref) : option (list Task) := nth_error h r.

Definition alloc (h : store) (elems : list Task) : ref * store :=
  (List.length h, h ++ [elems]).

Fixpoint set (h : store) (r : ref) (elems : list Task) : store :=
  match h, r with
  | [], _ => []
  | _ :: h', O => elems :: h'
  | a :: h', S r' => a :: set h' r' elems
  end.

(** [arr.sort(cmp)]: reorders the array [arr] itself. *)
Definition sort_in_place (h : store) (arr : ref) (cmp : Task -> Task -> option Z) : store :=
  match get h arr with
  | None => h
  | Some elems => set h arr (js_sort cmp elems)
  end.

Section WithDate.

Context `{DR : DateRuntime}.

Definition sortTasks (h : store) (tasks : ref) (sortBy : string) : option (ref * store) :=
  match get h tasks with
  | None => None
  | Some elems =>
      let (sortedTasks, h1) := alloc h elems in
      Some (sortedTasks, sort_in_place h1 sortedTasks (sort_comparator sortBy))
  end.

Definition filterTasksByTag (h : store) (tasks : ref) (tagFilter : option string)
  : option (ref * store) :=
  if negb (truthy tagFilter) then Some (tasks, h)
  else
    match get h tasks, tagFilter with
    | Some elems, Some f => Some (alloc h (filter (tag_matches f) elems))
    | _, _ => None
    end.

End WithDate.

End ArrayStore.

(** ** The page: [UIRenderer] *)

Inductive NotificationType := type_success | type_error | type_warning.

(** What [createTaskHTML] puts on the page for one task; the markup around
    these values is left out. *)
Record TaskView := {
  view_task : Task;
  view_dueDateStatus : DueDateStatus;
  view_formattedDate : string
}.

(** The state of the elements the renderer holds.  An empty [tasksList] is
    the empty-state placeholder. *)
Record UI := mkUI {
  taskInput : string;
  dueDateInput : string;
  tagsInput : string;
  editTaskText : string;
  editDueDate : string;
  editTags : string;
  editModal_shown : bool;
  editModal_taskId : option string;
  tasksList : list TaskView;
  taskCount : string;
  tagFilter_options : list string;
  tagFilter_value : string;
  notification : option (string * NotificationType)
}.

Definition getFormData (u : UI) : TaskData :=
  {| data_text := Some (taskInput u);
     data_dueDate := Some (dueDateInput u);
     data_tags := Some (tagsInput u) |}.

Definition getEditFormData (u : UI) : TaskData :=
  {| data_text := Some (editTaskText u);
     data_dueDate := Some (editDueDate u);
     data_tags := Some (editTags u) |}.

(** [taskForm.reset()]: the inputs of the form carry no default value. *)
Definition clearTaskForm (u : UI) : UI :=
  mkUI "" "" "" (editTaskText u) (editDueDate u) (editTags u)
       (editModal_shown u) (editModal_taskId u) (tasksList u) (taskCount u)
       (tagFilter_options u) (tagFilter_value u) (notification u).

Definition hideEditModal (u : UI) : UI :=
  mkUI (taskInput u) (dueDateInput u) (tagsInput u) "" "" ""
       false None (tasksList u) (taskCount u)
       (tagFilter_options u) (tagFilter_value u) (notification u).

(** [showNotification(message, type)]: replaces the notification on display. *)
Definition showNotification (message : string) (type : NotificationType) (u : UI) : UI :=
  mkUI (taskInput u) (dueDateInput u) (tagsInput u)
       (editTaskText u) (editDueDate u) (editTags u)
       (editModal_shown u) (editModal_taskId u) (tasksList u) (taskCount u)
       (tagFilter_options u) (tagFilter_value u) (Some (message, type)).

Definition updateTaskCount (count : Z) (u : UI) : UI :=
  mkUI (taskInput u) (dueDateInput u) (tagsInput u)
       (editTaskText u) (editDueDate u) (editTags u)
       (editModal_shown u) (editModal_taskId u) (tasksList u)
       ("(" ++ ofNumber (Some count) ++ ")")%string
       (tagFilter_options u) (tagFilter_value u) (notification u).

(** [updateTagFilter(tags)]: the options are rebuilt; the selection stays on
    the current value when it is still an option and falls back to
    "All tags" (the empty value) otherwise. *)
Definition updateTagFilter (tags : list string) (u : UI) : UI :=
  let currentValue := tagFilter_value u in
  mkUI (taskInput u) (dueDateInput u) (tagsInput u)
       (editTaskText u) (editDueDate u) (editTags u)
       (editModal_shown u) (editModal_taskId u) (tasksList u) (taskCount u)
       tags
       (if existsb (fun tag => (currentValue =? tag)%string) tags then currentValue else "")
       (notification u).

Section Renderer.

Context `{DR : DateRuntime}.

Definition createTaskHTML (w : World) (task : Task) : TaskView :=
  {| view_task := task;
     view_dueDateStatus := getDueDateStatus (Some (dueDate task)) w;
     view_formattedDate := formatDate (Some (dueDate task)) w |}.

Definition renderTasks (w : World) (tasks : list Task) (u : UI) : UI :=
  mkUI (taskInput u) (dueDateInput u) (tagsInput u)
       (editTaskText u) (editDueDate u) (editTags u)
       (editModal_shown u) (editModal_taskId u)
       (map (createTaskHTML w) tasks) (taskCount u)
       (tagFilter_options u) (tagFilter_value u) (notification u).

End Renderer.

(** ** The controller: [TodoApp]

    A handler maps the world it runs in and the state of the controller to
    the state it leaves.  The event it receives serves [preventDefault]
    only, and what it writes to the console is left out. *)

(** [storage] is the item stored under the key ['todo-tasks'], [None] when
    there is none; the JSON text is identified with the tasks it encodes. *)
Record App := mkApp {
  storage : option (list Task);
  ui : UI;
  tasks : list Task;
  currentFilter : string;
  currentSort : string;
  isDarkMode : bool
}.

Definition with_ui (u : UI) (app : App) : App :=
  mkApp (storage app) u (tasks app) (currentFilter app) (currentSort app) (isDarkMode app).

Definition with_tasks (ts : list Task) (app : App) : App :=
  mkApp (storage app) (ui app) ts (currentFilter app) (currentSort app) (isDarkMode app).

(** [TaskStorage.saveTasks]: a failing write is logged and swallowed. *)
Definition saveTasks (w : World) (ts : list Task) (app : App) : App :=
  if storage_writable w
  then mkApp (Some ts) (ui app) (tasks app) (currentFilter app) (currentSort app)
             (isDarkMode app)
  else app.

(** [t.id === taskId], where [taskId] may be [undefined]. *)
Definition id_is (taskId : option string) (t : Task) : bool :=
  match taskId with
  | None => false
  | Some i => (id t =? i)%string
  end.

(** The assignment to the fields of the object [find] returned: the first
    task satisfying [p] is replaced by its update, in place. *)
Fixpoint update_first (p : Task -> bool) (f : Task -> Task) (l : list Task) : list Task :=
  match l with
  | [] => []
  | t :: l' => if p t then f t :: l' else t :: update_first p f l'
  end.

Section TodoApp.

Context `{DR : DateRuntime}.

Definition getFilteredTasks (app : App) : list Task :=
  let filteredTasks := tasks app in
  let filteredTasks :=
    if truthy_string (currentFilter app)
    then filterTasksByTag filteredTasks (Some (currentFilter app))
    else filteredTasks in
  sortTasks filteredTasks (currentSort app).

(** [render]: the statistics it computes are only logged. *)
Definition render (w : World) (app : App) : App :=
  let filteredTasks := getFilteredTasks app in
  let u := renderTasks w filteredTasks (ui app) in
  let u := updateTaskCount (Z.of_nat (List.length (tasks app))) u in
  let u := updateTagFilter (getAllTags (tasks app)) u in
  with_ui u app.

Definition saveAndRender (w : World) (app : App) : App :=
  render w (saveTasks w (tasks app) app).

Definition handleTaskSubmit (w : World) (app : App) : App :=
  let formData := getFormData (ui app) in
  let validation := validateTask formData in
  if negb (isValid validation) then
    with_ui (showNotification (join ", " (errors validation)) type_error (ui app)) app
  else
    let newTask :=
      createTask (taskInput (ui app)) (data_dueDate formData) (data_tags formData) w in
    let app := with_tasks (newTask :: tasks app) app in
    let app := saveAndRender w app in
    let app := with_ui (clearTaskForm (ui app)) app in
    with_ui (showNotification "Task added successfully!" type_success (ui app)) app.

(** The four assignments of [handleEditSubmit]. *)
Definition edit_task (w : World) (u : UI) (task : Task) : Task :=
  {| id := id task;
     text := trim (editTaskText u);
     completed := completed task;
     dueDate := editDueDate u;
     tags := parseTags (Some (editTags u));
     createdAt := createdAt task;
     priority := calculatePriority (Some (editDueDate u)) w |}.

Definition handleEditSubmit (w : World) (app : App) : App :=
  let taskId := editModal_taskId (ui app) in
  match find (id_is taskId) (tasks app) with
  | None => with_ui (hideEditModal (ui app)) app
  | Some task =>
      let formData := getEditFormData (ui app) in
      let validation := validateTask formData in
      if negb (isValid validation) then
        with_ui (showNotification (join ", " (errors validation)) type_error (ui app)) app
      else
        let form := ui app in
        let app :=
          with_tasks (update_first (id_is taskId) (edit_task w form) (tasks app)) app in
        let app := saveAndRender w app in
        let app := with_ui (hideEditModal (ui app)) app in
        with_ui (showNotification "Task updated successfully!" type_success (ui app)) app
  end.

End TodoApp.

(** ** The rest of the page and of the controller *)

(** [escapeHtml(text)]: the text is stored as the content of an element and
    read back as markup.  Writing a text node out as markup replaces [&],
    [<] and [>] by their entities (and the no-break space, which lies
    outside ASCII) and leaves every other character, the quotes included,
    as it is. *)
Fixpoint escapeHtml (text : string) : string :=
  match text with
  | EmptyString => EmptyString
  | String c rest =>
      ((if Ascii.eqb c "&" then "&amp;"
        else if Ascii.eqb c "<" then "&lt;"
        else if Ascii.eqb c ">" then "&gt;"
        else String c EmptyString)
       ++ escapeHtml rest)%string
  end.

(** [showEditModal(task)]: the dialog is filled from the task and remembers
    its [id]. *)
Definition showEditModal (task : Task) (u : UI) : UI :=
  mkUI (taskInput u) (dueDateInput u) (tagsInput u)
       (text task)
       (if truthy_string (dueDate task) then dueDate task else "")
       (join " " (tags task))
       true (Some (id task)) (tasksList u) (taskCount u)
       (tagFilter_options u) (tagFilter_value u) (notification u).

(** What the user does to the inputs of the two forms before submitting. *)
Definition type_task_form (text dueDate tags : string) (u : UI) : UI :=
  mkUI text dueDate tags (editTaskText u) (editDueDate u) (editTags u)
       (editModal_shown u) (editModal_taskId u) (tasksList u) (taskCount u)
       (tagFilter_options u) (tagFilter_value u) (notification u).

Definition type_edit_form (text dueDate tags : string) (u : UI) : UI :=
  mkUI (taskInput u) (dueDateInput u) (tagsInput u) text dueDate tags
       (editModal_shown u) (editModal_taskId u) (tasksList u) (taskCount u)
       (tagFilter_options u) (tagFilter_value u) (notification u).

(** [this.ui.elements.dueDateInput.value = today] *)
Definition set_dueDateInput (value : string) (u : UI) : UI :=
  mkUI (taskInput u) value (tagsInput u) (editTaskText u) (editDueDate u) (editTags u)
       (editModal_shown u) (editModal_taskId u) (tasksList u) (taskCount u)
       (tagFilter_options u) (tagFilter_value u) (notification u).

(** [s.split(c)[0]]: the part of [s] before the first [c]. *)
Fixpoint before_char (c : ascii) (s : string) : string :=
  match s with
  | EmptyString => EmptyString
  | String d s' => if Ascii.eqb d c then EmptyString else String d (before_char c s')
  end.

(** [TaskStorage.loadTasks]: no item, or one that cannot be read, gives the
    empty collection. *)
Definition loadTasks (item : option (list Task)) : list Task :=
  match item with
  | Some ts => ts
  | None => []
  end.

Definition with_currentFilter (value : string) (app : App) : App :=
  mkApp (storage app) (ui app) (tasks app) value (currentSort app) (isDarkMode app).

Definition with_currentSort (value : string) (app : App) : App :=
  mkApp (storage app) (ui app) (tasks app) (currentFilter app) value (isDarkMode app).

(** What the user can do on the page.  [confirmed] is the answer to the
    confirmation dialog, should the handler ask. *)
Inductive Intent :=
| TypeTask (text dueDate tags : string)
| TypeEdit (text dueDate tags : string)
| SubmitTask
| SubmitEdit
| ToggleTask (taskId : string) (checked : bool)
| EditTask (taskId : string)
| DeleteTask (taskId : string) (confirmed : bool)
| ClearCompleted (confirmed : bool)
| ChangeTagFilter (value : string)
| ChangeSort (value : string)
| CloseModal.

Section TodoAppIntents.

Context `{DR : DateRuntime}.

(** The two assignments of [handleTaskToggle]. *)
Definition toggle_task (w : World) (checked : bool) (task : Task) : Task :=
  {| id := id task;
     text := text task;
     completed := checked;
     dueDate := dueDate task;
     tags := tags task;
     createdAt := createdAt task;
     priority := calculatePriority (Some (dueDate task)) w |}.

Definition handleTaskToggle (w : World) (taskId : string) (checked : bool) (app : App) : App :=
  match find (id_is (Some taskId)) (tasks app) with
  | None => app
  | Some task =>
      let app :=
        with_tasks (update_first (id_is (Some taskId)) (toggle_task w checked) (tasks app))
                   app in
      let app := saveAndRender w app in
      let message := if checked then "Task completed!" else "Task marked as pending" in
      with_ui (showNotification message type_success (ui app)) app
  end.

Definition handleTaskEdit (taskId : string) (app : App) : App :=
  match find (id_is (Some taskId)) (tasks app) with
  | None => app
  | Some task => with_ui (showEditModal task (ui app)) app
  end.

Definition handleTaskDelete (w : World) (taskId : string) (confirmed : bool) (app : App) : App :=
  if confirmed then
    let app :=
      with_tasks (filter (fun t => negb (id t =? taskId)%string) (tasks app)) app in
    let app := saveAndRender w app in
    with_ui (showNotification "Task deleted successfully!" type_success (ui app)) app
  else app.

Definition handleTagFilterChange (w : World) (value : string) (app : App) : App :=
  render w (with_currentFilter value app).

Definition handleSortChange (w : World) (value : string) (app : App) : App :=
  render w (with_currentSort value app).

Definition handleClearCompleted (w : World) (confirmed : bool) (app : App) : App :=
  let completedCount := Z.of_nat (List.length (filter completed (tasks app))) in
  if completedCount =? 0 then
    with_ui (showNotification "No completed tasks to clear" type_warning (ui app)) app
  else if confirmed then
    let app := with_tasks (filter (fun t => negb (completed t)) (tasks app)) app in
    let app := saveAndRender w app in
    with_ui
      (showNotification
         (ofNumber (Some completedCount) ++ " completed task"
            ++ (if negb (completedCount =? 1)%Z then "s" else "") ++ " cleared!")%string
         type_success (ui app))
      app
  else app.

(** The constructor followed by [init]: the collection is read from the
    stored item, the page is rendered and the due-date input is preset to
    today.  [page] is the page as loaded and [dark] the stored theme;
    applying the theme and registering the listeners do not bear on the
    state kept here. *)
Definition init (w : World) (item : option (list Task)) (dark : bool) (page : UI) : App :=
  let app := mkApp item page [] "" "created" dark in
  let app := with_tasks (loadTasks (storage app)) app in
  let app := render w app in
  let today := before_char "T" (Date_toISOString (clock w)) in
  with_ui (set_dueDateInput today (ui app)) app.

(** One intent, handled to completion in the world it arrives in. *)
Definition step (w : World) (intent : Intent) (app : App) : App :=
  match intent with
  | TypeTask text dueDate tags => with_ui (type_task_form text dueDate tags (ui app)) app
  | TypeEdit text dueDate tags => with_ui (type_edit_form text dueDate tags (ui app)) app
  | SubmitTask => handleTaskSubmit w app
  | SubmitEdit => handleEditSubmit w app
  | ToggleTask taskId checked => handleTaskToggle w taskId checked app
  | EditTask taskId => handleTaskEdit taskId app
  | DeleteTask taskId confirmed => handleTaskDelete w taskId confirmed app
  | ClearCompleted confirmed => handleClearCompleted w confirmed app
  | ChangeTagFilter value => handleTagFilterChange w value app
  | ChangeSort value => handleSortChange w value app
  | CloseModal => with_ui (hideEditModal (ui app)) app
  end.

(** A session: the intents in the order they arrive, each with its world. *)
Fixpoint run (session : list (World * Intent)) (app : App) : App :=
  match session with
  | [] => app
  | (w, intent) :: rest => run rest (step w intent app)
  end.

End TodoAppIntents.

(** ** A host to run the model on

    [UtcDate] is a [Date] whose time zone is UTC and whose parser accepts the
    two forms of the ECMAScript date-time string format that the
    application produces: the date-only form [YYYY-MM-DD] of a date input
    (midnight UTC) and the form [YYYY-MM-DDTHH:mm:ss.sssZ] written by
    [toISOString].  Every other string is an invalid date for it.  The
    theorems below hold for any [DateRuntime]; this one serves to evaluate
    the model on concrete inputs. *)

Module UtcDate.

Definition digit (c : ascii) : option Z :=
  let n := nat_of_ascii c in
  if ((48 <=? n) && (n <=? 57))%nat then Some (Z.of_nat n - 48) else None.

Fixpoint number_from (cs : list ascii) (acc : Z) : option Z :=
  match cs with
  | [] => Some acc
  | c :: cs' =>
      match digit c with
      | None => None
      | Some d => number_from cs' (10 * acc + d)
      end
  end.

Definition number (cs : list ascii) : option Z := number_from cs 0.

Definition is_leap (y : Z) : bool :=
  ((y mod 4 =? 0) && negb (y mod 100 =? 0)) || (y mod 400 =? 0).

Definition days_in_month (y m : Z) : Z :=
  if m =? 2 then (if is_leap y then 29 else 28)
  else if (m =? 4) || (m =? 6) || (m =? 9) || (m =? 11) then 30
  else 31.

(** Days from 1970-01-01 to the civil date [y]-[m]-[d]. *)
Definition days_from_civil (y m d : Z) : Z :=
  let y' := if m <=? 2 then y - 1 else y in
  let era := y' / 400 in
  let yoe := y' - era * 400 in
  let mp := (m + 9) mod 12 in
  let doy := (153 * mp + 2) / 5 + d - 1 in
  let doe := yoe * 365 + yoe / 4 - yoe / 100 + doy in
  era * 146097 + doe - 719468.

(** The civil date [(y, m, d)] that lies [z] days after 1970-01-01. *)
Definition civil_from_days (z : Z) : Z * Z * Z :=
  let z' := z + 719468 in
  let era := z' / 146097 in
  let doe := z' - era * 146097 in
  let yoe := (doe - doe / 1460 + doe / 36524 - doe / 146096) / 365 in
  let doy := doe - (365 * yoe + yoe / 4 - yoe / 100) in
  let mp := (5 * doy + 2) / 153 in
  let d := doy - (153 * mp + 2) / 5 + 1 in
  let m := if mp <? 10 then mp + 3 else mp - 9 in
  let y := yoe + era * 400 in
  (if m <=? 2 then y + 1 else y, m, d).

Definition make_date (y m d : option Z) : option Z :=
  match y, m, d with
  | Some y, Some m, Some d =>
      if (1 <=? m) && (m <=? 12) && (1 <=? d) && (d <=? days_in_month y m)
      then Some (days_from_civil y m d * MS_PER_DAY)
      else None
  | _, _, _ => None
  end.

Definition make_time (h mi s ms : option Z) : option Z :=
  match h, mi, s, ms with
  | Some h, Some mi, Some s, Some ms =>
      if (h <=? 23) && (mi <=? 59) && (s <=? 59)
      then Some (((h * 60 + mi) * 60 + s) * 1000 + ms)
      else None
  | _, _, _, _ => None
  end.

Definition parse (s : string) : option Z :=
  match list_ascii_of_string s with
  | [y1; y2; y3; y4; "-"%char; m1; m2; "-"%char; d1; d2] =>
      make_date (number [y1; y2; y3; y4]) (number [m1; m2]) (number [d1; d2])
  | [y1; y2; y3; y4; "-"%char; m1; m2; "-"%char; d1; d2; "T"%char;
     h1; h2; ":"%char; mi1; mi2; ":"%char; s1; s2; "."%char; f1; f2; f3; "Z"%char] =>
      match make_date (number [y1; y2; y3; y4]) (number [m1; m2]) (number [d1; d2]),
            make_time (number [h1; h2]) (number [mi1; mi2]) (number [s1; s2])
                      (number [f1; f2; f3]) with
      | Some day, Some time => Some (day + time)
      | _, _ => None
      end
  | _ => None
  end.

(** [n] in decimal, padded with zeros to [width] digits. *)
Fixpoint pad_from (width : nat) (n : Z) (acc : string) : string :=
  match width with
  | O => acc
  | S width' =>
      pad_from width' (n / 10) (String (ascii_of_nat (48 + Z.to_nat (n mod 10))) acc)
  end.

Definition pad (width : nat) (n : Z) : string := pad_from width n EmptyString.

(** [toISOString] for the years 0000 to 9999. *)
Definition toISOString (t : Z) : string :=
  let '(y, m, d) := civil_from_days (t / MS_PER_DAY) in
  let r := t mod MS_PER_DAY in
  (pad 4 y ++ "-" ++ pad 2 m ++ "-" ++ pad 2 d ++ "T"
     ++ pad 2 (r / 3600000) ++ ":" ++ pad 2 (r / 60000 mod 60) ++ ":"
     ++ pad 2 (r / 1000 mod 60) ++ "." ++ pad 3 (r mod 1000) ++ "Z")%string.

Definition month_name (m : Z) : string :=
  nth (Z.to_nat (m - 1))
      ["Jan"; "Feb"; "Mar"; "Apr"; "May"; "Jun";
       "Jul"; "Aug"; "Sep"; "Oct"; "Nov"; "Dec"] "".

Definition toLocaleDateString (t : option Z) : string :=
  match t with
  | None => "Invalid Date"
  | Some t =>
      let '(y, m, d) := civil_from_days (t / MS_PER_DAY) in
      (month_name m ++ " " ++ ofNumber (Some d) ++ ", " ++ ofNumber (Some y))%string
  end.

End UtcDate.

#[export] Instance utc_date : DateRuntime := {
  Date_parse := UtcDate.parse;
  Date_toISOString := UtcDate.toISOString;
  Date_toLocaleDateString := UtcDate.toLocaleDateString
}.

(** ** Reference definitions

    Definitions that follow the wording of the specification, against which
    the functions above are compared. *)

(** Duplicates removed, the first occurrence of each element kept in
    place.  [seen] holds the elements already kept. *)
Fixpoint dedup_seen (seen l : list string) : list string :=
  match l with
  | [] => []
  | x :: rest =>
      if existsb (String.eqb x) seen then dedup_seen seen rest
      else x :: dedup_seen (x :: seen) rest
  end.

Definition remove_duplicates (l : list string) : list string := dedup_seen [] l.

(** The specification of [parseTags], step by step: split on whitespace,
    keep the tokens beginning with [#], lower-case each, remove duplicates
    in first-seen order; nothing for an input that is not a string. *)
Definition parseTags_spec (input : option string) : list string :=
  match input with
  | None => []
  | Some s =>
      remove_duplicates
        (map toLowerCase (filter (fun token => startsWith token "#") (split_ws s)))
  end.

Fixpoint has_whitespace (s : string) : bool :=
  match s with
  | EmptyString => false
  | String c s' => is_whitespace c || has_whitespace s'
  end.

(** A string that [Date] can read. *)
Definition has_date `{DateRuntime} (s : string) : bool :=
  match Date_parse s with
  | Some _ => true
  | None => false
  end.

(** A task as the data model describes it: the due date is absent or a
    calendar date, and the creation stamp is a timestamp. *)
Definition well_formed `{DateRuntime} (t : Task) : bool :=
  (negb (truthy_string (dueDate t)) || has_date (dueDate t)) && has_date (createdAt t).

(** The part of it that the comparator of a criterion looks at: on tasks
    that are [comparable] the comparator never answers [NaN] and is a
    consistent comparator in the sense of the standard. *)
Definition comparable `{DateRuntime} (sortBy : string) (t : Task) : bool :=
  if (sortBy =? "dueDate")%string
  then negb (truthy_string (dueDate t)) || has_date (dueDate t)
  else if (sortBy =? "priority")%string then true
  else has_date (createdAt t).

(** [round(x)] for the exact quotient [x = 100 * completed / total]: the
    nearest integer, with a tie going up ([round_half_up]) or to the even
    neighbour ([round_half_even]). *)
Definition round_half_up (num den : Z) : Z := (2 * num + den) / (2 * den).

Definition round_half_even (num den : Z) : Z :=
  let q := num / den in
  let r := num mod den in
  if 2 * r <? den then q
  else if den <? 2 * r then q + 1
  else if Z.even q then q else q + 1.

(** The number of elements of [l] that satisfy [p]. *)
Fixpoint count_if {A : Type} (p : A -> bool) (l : list A) : Z :=
  match l with
  | [] => 0
  | x :: l' => (if p x then 1 else 0) + count_if p l'
  end.

(** A tag as [parseTags] writes it. *)
Definition tag_ok (tag : string) : bool :=
  startsWith tag "#" && negb (has_whitespace tag) && (toLowerCase tag =? tag)%string.

(** A task as validation followed by construction leaves it: a trimmed,
    non-empty text of at most 500 characters, a due date that is absent or
    readable, and distinct well-formed tags that fit, joined by spaces, in
    the ten characters validation allows. *)
Definition task_ok `{DateRuntime} (t : Task) : Prop :=
  text t <> ""
  /\ trim (text t) = text t
  /\ (String.length (text t) <= 500)%nat
  /\ (dueDate t = "" \/ has_date (dueDate t) = true)
  /\ NoDup (tags t)
  /\ Forall (fun tag => tag_ok tag = true) (tags t)
  /\ (String.length (join " " (tags t)) <= 10)%nat.

(** A reload would read the collection the controller holds. *)
Definition stored_in_sync (app : App) : Prop :=
  loadTasks (storage app) = tasks app.

(** The page shows the current view: the list is the filtered and sorted
    collection, the counter the size of the collection, the tag menu the
    tags in use. *)
Definition page_in_sync `{DateRuntime} (app : App) : Prop :=
  map view_task (tasksList (ui app)) = getFilteredTasks app
  /\ taskCount (ui app)
     = ("(" ++ ofNumber (Some (Z.of_nat (List.length (tasks app)))) ++ ")")%string
  /\ tagFilter_options (ui app) = getAllTags (tasks app).

(** Strictly ascending in code-unit order. *)
Definition string_lt (x y : string) : Prop := String.compare x y = Lt.

(** [c] occurs in [s]. *)
Fixpoint contains_char (c : ascii) (s : string) : bool :=
  match s with
  | EmptyString => false
  | String d s' => Ascii.eqb d c || contains_char c s'
  end.

(** [s] is empty or begins with a character that [trim] keeps. *)
Definition head_ok (s : string) : bool :=
  match s with
  | EmptyString => true
  | String c _ => negb (is_whitespace c)
  end.

(** A piece that [split] gives back as it is: not empty, no whitespace. *)
Definition token_ok (t : string) : Prop := has_whitespace t = false /\ t <> "".

(** The characters of a list of pieces, one separator counted for each. *)
Fixpoint weight (l : list string) : nat :=
  match l with
  | [] => 0
  | x :: l' => String.length x + 1 + weight l'
  end.

(** The double quote, the character that ends an attribute value. *)
Definition double_quote : ascii := ascii_of_nat 34.

(** Reading the three entities back. *)
Fixpoint unescapeHtml (s : string) : string :=
  match s with
  | EmptyString => EmptyString
  | String "&" (String "a" (String "m" (String "p" (String ";" rest)))) =>
      String "&" (unescapeHtml rest)
  | String "&" (String "l" (String "t" (String ";" rest))) =>
      String "<" (unescapeHtml rest)
  | String "&" (String "g" (String "t" (String ";" rest))) =>
      String ">" (unescapeHtml rest)
  | String c rest => String c (unescapeHtml rest)
  end.

(** The intents that only look: typing, opening and closing the dialog,
    choosing a filter or a sort order. *)
Definition is_view_intent (intent : Intent) : bool :=
  match intent with
  | TypeTask _ _ _ | TypeEdit _ _ _ | EditTask _ | ChangeTagFilter _ | ChangeSort _
  | CloseModal => true
  | _ => false
  end.

(** ** Sample data

    A small collection, a clock reading (2024-01-09, 09:00 UTC) and a
    controller state, on which the properties below are exercised. *)

Module Samples.

Definition now : World :=
  {| clock := 1704790800000; entropy := "k3x9"; storage_writable := true |}.

Definition report : Task :=
  mkTask "a1" "Write report" false "2024-01-12" ["#work"]
         "2024-01-05T08:00:00.000Z" Medium.
Definition laundry : Task :=
  mkTask "a2" "Laundry" true "" ["#home"] "2024-01-06T08:00:00.000Z" Low.
Definition rent : Task :=
  mkTask "a3" "Pay rent" false "2024-01-08" [] "2024-01-07T08:00:00.000Z" Overdue.
Definition call : Task :=
  mkTask "a4" "Call Sam" false "2024-01-10" ["#home"; "#phone"]
         "2024-01-08T08:00:00.000Z" High.
Definition garden : Task :=
  mkTask "a5" "Water plants" false "" ["#home"] "2024-01-08T09:00:00.000Z" Low.

Definition collection : list Task := [report; laundry; rent; call].

Definition page : UI :=
  mkUI "" "" "" "" "" "" false None [] "(0)" [] "" None.

(** The collection on screen, the input form left empty. *)
Definition app : App := mkApp None page collection "" "created" false.

(** The edit dialog open on [call], its form filled in. *)
Definition editing : App :=
  mkApp None
        (mkUI "" "" "" "  Call Sam back " "2024-01-11" "#Phone" true (Some "a4")
              [] "(4)" [] "" None)
        collection "" "created" false.

(** The same dialog with the text wiped out. *)
Definition editing_blank : App :=
  mkApp None
        (mkUI "" "" "" "   " "2024-01-11" "#Phone" true (Some "a4")
              [] "(4)" [] "" None)
        collection "" "created" false.

(** Forty tasks, the first twenty-three of them completed. *)
Definition forty : list Task :=
  map (fun n : nat =>
         mkTask (ofNumber (Some (Z.of_nat n))) "task" (n <? 23)%nat "" []
                "2024-01-01T00:00:00.000Z" Low)
      (seq 0 40).

End Samples.

(** A later clock reading (2024-01-11, 09:00 UTC), a world whose storage
    refuses writes, a short session and a controller with the input form
    filled in. *)

Module Sessions.

Definition later : World :=
  {| clock := 1704963600000; entropy := "p0q1"; storage_writable := true |}.

Definition offline : World :=
  {| clock := 1704963600000; entropy := "p0q1"; storage_writable := false |}.

Definition shopping : list (World * Intent) :=
  [(Samples.now, TypeTask " Buy milk " "2024-01-10" "#home");
   (Samples.now, SubmitTask);
   (later, TypeTask "Call Sam" "" "#Phone #p");
   (later, SubmitTask);
   (later, ToggleTask "lr64fc00k3x9" true);
   (later, ChangeTagFilter "#home");
   (later, EditTask "lr8zb1c0p0q1");
   (later, SubmitEdit);
   (later, ClearCompleted true)].

Definition filled : App :=
  with_ui (type_task_form " Buy milk " "2024-01-10" "#home" Samples.page) Samples.app.

End Sessions.

(** * Properties *)

(** ** Strings and tag parsing *)

Lemma lower_char_idempotent (c : ascii) : lower_char (lower_char c) = lower_char c.
Proof. destruct c as [[] [] [] [] [] [] [] []]; reflexivity. Qed.

Lemma toLowerCase_idempotent (s : string) : toLowerCase (toLowerCase s) = toLowerCase s.
Proof.
  induction s as [|c s IH]; simpl; [reflexivity|].
  now rewrite lower_char_idempotent, IH.
Qed.

Lemma lower_char_whitespace (c : ascii) : is_whitespace (lower_char c) = is_whitespace c.
Proof. destruct c as [[] [] [] [] [] [] [] []]; reflexivity. Qed.

Lemma has_whitespace_toLowerCase (s : string) :
  has_whitespace (toLowerCase s) = has_whitespace s.
Proof.
  induction s as [|c s IH]; simpl; [reflexivity|].
  now rewrite lower_char_whitespace, IH.
Qed.

Lemma startsWith_hash_toLowerCase (s : string) :
  startsWith (toLowerCase s) "#" = startsWith s "#".
Proof.
  destruct s as [|c s]; [reflexivity|].
  destruct c as [[] [] [] [] [] [] [] []]; reflexivity.
Qed.

Lemma has_whitespace_snoc (s : string) (c : ascii) :
  has_whitespace (s ++ String c EmptyString)%string = has_whitespace s || is_whitespace c.
Proof.
  induction s as [|d s IH]; simpl.
  - now rewrite orb_false_r.
  - now rewrite IH, orb_assoc.
Qed.

Lemma split_from_no_whitespace (s cur : string) (in_run : bool) :
  has_whitespace cur = false ->
  Forall (fun token => has_whitespace token = false) (split_from s cur in_run).
Proof.
  revert cur in_run.
  induction s as [|c s IH]; intros cur in_run Hcur; simpl.
  - now constructor.
  - destruct (is_whitespace c) eqn:Hc.
    + destruct in_run; [now apply IH|].
      constructor; [exact Hcur | now apply IH].
    + apply IH. now rewrite has_whitespace_snoc, Hcur, Hc.
Qed.

Lemma split_ws_no_whitespace (s : string) :
  Forall (fun token => has_whitespace token = false) (split_ws s).
Proof. now apply split_from_no_whitespace. Qed.

(** A string without whitespace is its own single piece. *)
Lemma split_from_solid (s cur : string) (in_run : bool) :
  has_whitespace s = false -> split_from s cur in_run = [(cur ++ s)%string].
Proof.
  revert cur in_run.
  induction s as [|c s IH]; intros cur in_run Hs; simpl in *.
  - f_equal. clear. induction cur; simpl; congruence.
  - apply orb_false_iff in Hs as [Hc Hs]. rewrite Hc, IH by exact Hs.
    f_equal. clear. induction cur; simpl; congruence.
Qed.

Lemma indexOf_from_first (pre suf : list string) (x : string) (k : Z) :
  indexOf_from (pre ++ x :: suf) x k = k + Z.of_nat (List.length pre) <-> ~ In x pre.
Proof.
  revert k. induction pre as [|y pre IH]; intros k.
  - simpl. rewrite String.eqb_refl. split; [tauto | lia].
  - cbn [app indexOf_from List.length]. rewrite Nat2Z.inj_succ.
    destruct (String.eqb y x) eqn:Hyx.
    + apply String.eqb_eq in Hyx. simpl. split; [lia | tauto].
    + apply String.eqb_neq in Hyx.
      replace (k + Z.succ (Z.of_nat (List.length pre)))
        with (k + 1 + Z.of_nat (List.length pre)) by lia.
      rewrite (IH (k + 1)). simpl. intuition congruence.
Qed.

Lemma existsb_eqb_In (x : string) (l : list string) :
  existsb (String.eqb x) l = true <-> In x l.
Proof.
  rewrite existsb_exists. split.
  - intros [y [Hy Hxy]]. apply String.eqb_eq in Hxy. now subst.
  - intros Hx. exists x. split; [exact Hx | apply String.eqb_refl].
Qed.

(** Keeping the elements whose first index is their own index removes
    the duplicates and keeps first occurrences. *)
Lemma filter_first_index_dedup (arr suf pre seen : list string) :
  arr = pre ++ suf ->
  (forall x, In x seen <-> In x pre) ->
  filter_from (fun tag index => indexOf arr tag =? index) suf (Z.of_nat (List.length pre))
  = dedup_seen seen suf.
Proof.
  revert pre seen.
  induction suf as [|x suf IH]; intros pre seen Harr Hseen; [reflexivity|].
  cbn [filter_from dedup_seen].
  assert (Hstep : arr = (pre ++ [x]) ++ suf) by (now rewrite <- app_assoc).
  assert (Hlen : Z.of_nat (List.length pre) + 1 = Z.of_nat (List.length (pre ++ [x])))
    by (rewrite length_app; simpl; lia).
  rewrite Hlen.
  destruct (existsb (String.eqb x) seen) eqn:Hx.
  - apply existsb_eqb_In, Hseen in Hx.
    assert (Hidx : (indexOf arr x =? Z.of_nat (List.length pre)) = false).
    { apply Z.eqb_neq. unfold indexOf. rewrite Harr. intros Heq.
      change (Z.of_nat (List.length pre)) with (0 + Z.of_nat (List.length pre)) in Heq.
      now apply indexOf_from_first in Heq. }
    rewrite Hidx. apply IH; [exact Hstep|].
    intros y. rewrite in_app_iff, Hseen. simpl. intuition (subst; auto).
  - assert (Hnot : ~ In x pre).
    { intros Hin. apply Hseen, existsb_eqb_In in Hin. congruence. }
    assert (Hidx : (indexOf arr x =? Z.of_nat (List.length pre)) = true).
    { apply Z.eqb_eq. unfold indexOf. rewrite Harr.
      now apply (indexOf_from_first pre suf x 0). }
    rewrite Hidx. f_equal. apply IH; [exact Hstep|].
    intros y. rewrite in_app_iff. simpl. rewrite Hseen. tauto.
Qed.

Lemma filter_indexed_dedup (arr : list string) :
  filter_indexed (fun tag index => indexOf arr tag =? index) arr = remove_duplicates arr.
Proof.
  unfold filter_indexed, remove_duplicates.
  now apply (filter_first_index_dedup arr arr [] []).
Qed.

Lemma dedup_seen_In (seen l : list string) (x : string) :
  In x (dedup_seen seen l) -> In x l /\ ~ In x seen.
Proof.
  revert seen. induction l as [|y l IH]; intros seen; simpl; [tauto|].
  destruct (existsb (String.eqb y) seen) eqn:Hy.
  - intros Hx. apply IH in Hx. tauto.
  - intros [Hx | Hx].
    + subst. split; [now left|].
      intros Hin. apply existsb_eqb_In in Hin. congruence.
    + apply IH in Hx. simpl in Hx. tauto.
Qed.

Lemma dedup_seen_NoDup (seen l : list string) : NoDup (dedup_seen seen l).
Proof.
  revert seen. induction l as [|y l IH]; intros seen; simpl; [constructor|].
  destruct (existsb (String.eqb y) seen); [apply IH|].
  constructor; [|apply IH].
  intros Hin. apply dedup_seen_In in Hin. simpl in Hin. tauto.
Qed.

(** Every element of the input survives once. *)
Lemma dedup_seen_complete (seen l : list string) (x : string) :
  In x l -> ~ In x seen -> In x (dedup_seen seen l).
Proof.
  revert seen. induction l as [|y l IH]; intros seen; simpl; [tauto|].
  intros [Hx | Hx] Hseen.
  - subst. destruct (existsb (String.eqb x) seen) eqn:E; [|now left].
    apply existsb_eqb_In in E. tauto.
  - destruct (existsb (String.eqb y) seen) eqn:E; [now apply IH|].
    destruct (String.eqb y x) eqn:Hyx.
    + apply String.eqb_eq in Hyx. now left.
    + right. apply IH; [exact Hx|]. apply String.eqb_neq in Hyx.
      simpl. tauto.
Qed.

Lemma parseTags_refines (input : option string) : parseTags input = parseTags_spec input.
Proof.
  destruct input as [s|]; [|reflexivity].
  unfold parseTags, parseTags_spec, truthy_string.
  destruct (String.eqb s "") eqn:Hs; simpl.
  - apply String.eqb_eq in Hs. now subst.
  - apply filter_indexed_dedup.
Qed.

(** C6. [parseTags] is a total function that does what its specification
    says step by step: it splits the input on whitespace, keeps the tokens
    beginning with [#], lower-cases them and removes duplicates keeping the
    first occurrence; an empty or non-string input gives the empty
    sequence.  Every element of the result starts with [#], no two elements
    are equal up to letter case, each is the lower-cased form of a token of
    the input, and every such token is represented. *)
Theorem parseTags_correct :
  forall input : option string,
    parseTags input = parseTags_spec input
    /\ (truthy input = false -> parseTags input = [])
    /\ Forall (fun tag => startsWith tag "#" = true) (parseTags input)
    /\ NoDup (map toLowerCase (parseTags input))
    /\ Forall (fun tag => has_whitespace tag = false) (parseTags input)
    /\ (forall s tag, input = Some s ->
          (In tag (parseTags input) <->
           exists token, In token (split_ws s) /\ startsWith token "#" = true
                         /\ tag = toLowerCase token)).
Proof.
  intros input.
  assert (Hin : forall tag, In tag (parseTags input) ->
            exists s token, input = Some s /\ In token (split_ws s)
              /\ startsWith token "#" = true /\ tag = toLowerCase token).
  { intros tag. rewrite parseTags_refines. destruct input as [s|]; simpl; [|tauto].
    intros Htag. apply dedup_seen_In in Htag as [Htag _].
    apply in_map_iff in Htag as [token [Heq Htok]].
    apply filter_In in Htok as [Htok Hhash].
    exists s, token. auto. }
  split; [apply parseTags_refines|].
  split.
  { destruct input as [s|]; [|reflexivity]. unfold parseTags, truthy, truthy_string.
    intros H. now rewrite H. }
  split.
  { apply Forall_forall. intros tag Htag.
    apply Hin in Htag as (s & token & _ & _ & Hhash & ->).
    now rewrite startsWith_hash_toLowerCase. }
  split.
  { assert (Hlow : map toLowerCase (parseTags input) = parseTags input).
    { rewrite <- (map_id (parseTags input)) at 2. apply map_ext_in.
      intros tag Htag. apply Hin in Htag as (s & token & _ & _ & _ & ->).
      apply toLowerCase_idempotent. }
    rewrite Hlow, parseTags_refines. destruct input; simpl; [|constructor].
    apply dedup_seen_NoDup. }
  split.
  { apply Forall_forall. intros tag Htag.
    apply Hin in Htag as (s & token & _ & Htok & _ & ->).
    rewrite has_whitespace_toLowerCase.
    pose proof (split_ws_no_whitespace s) as Hws. rewrite Forall_forall in Hws.
    now apply Hws. }
  intros s tag ->. split.
  - intros Htag. apply Hin in Htag as (s' & token & Heq & Htok & Hhash & ->).
    injection Heq as <-. exists token. auto.
  - intros (token & Htok & Hhash & ->). rewrite parseTags_refines. simpl.
    apply dedup_seen_complete; [|tauto].
    apply in_map. apply filter_In. auto.
Qed.

(** The example of the specification: text [" Buy milk "], tags
    ["#home #home"]. *)
Example parseTags_example :
  parseTags (Some "#home #home") = ["#home"]
  /\ parseTags (Some " #Work  todo #urgent	#WORK ") = ["#work"; "#urgent"]
  /\ parseTags (Some "") = [] /\ parseTags None = [].
Proof. repeat split; reflexivity. Qed.

(** ** Sorting *)

Section SortFacts.

Context {A : Type} (cmp : A -> A -> option Z).

Lemma sort_insert_perm (x : A) (l : list A) :
  Permutation (x :: l) (sort_insert cmp x l).
Proof.
  induction l as [|y l IH]; simpl.
  - apply Permutation_refl.
  - destruct (comes_after cmp x y).
    + rewrite perm_swap. now apply perm_skip.
    + apply Permutation_refl.
Qed.

Lemma js_sort_perm (l : list A) : Permutation l (js_sort cmp l).
Proof.
  induction l as [|x l IH]; simpl.
  - constructor.
  - rewrite <- sort_insert_perm. now apply perm_skip.
Qed.

Lemma sort_insert_head (x : A) (l : list A) :
  Forall (not_after cmp x) l -> sort_insert cmp x l = x :: l.
Proof.
  intros Hx. destruct l as [|y l]; simpl; [reflexivity|].
  inversion Hx as [|? ? Hy _]; subst. unfold not_after in Hy. now rewrite Hy.
Qed.

Lemma js_sort_fixed (l : list A) :
  StronglySorted (not_after cmp) l -> js_sort cmp l = l.
Proof.
  induction 1 as [|x l Hs IH Hx]; simpl; [reflexivity|].
  rewrite IH. now apply sort_insert_head.
Qed.

Lemma sort_insert_stable (p : A -> bool) (x : A) (l : list A) :
  (forall y, In y l -> p x = true -> p y = true -> not_after cmp x y) ->
  filter p (sort_insert cmp x l) = filter p (x :: l).
Proof.
  induction l as [|y l IH]; intros Htie; [reflexivity|].
  cbn [sort_insert]. destruct (comes_after cmp x y) eqn:Hxy.
  - cbn [filter]. rewrite IH by (intros; apply Htie; simpl; auto).
    cbn [filter].
    destruct (p x) eqn:Hpx, (p y) eqn:Hpy; try reflexivity.
    specialize (Htie y (or_introl eq_refl) eq_refl Hpy).
    unfold not_after in Htie. congruence.
  - reflexivity.
Qed.

Lemma js_sort_stable (p : A -> bool) (l : list A) :
  (forall x y, In x l -> In y l -> p x = true -> p y = true -> not_after cmp x y) ->
  filter p (js_sort cmp l) = filter p l.
Proof.
  induction l as [|x l IH]; intros Htie; [reflexivity|].
  cbn [js_sort]. rewrite sort_insert_stable.
  - cbn [filter]. rewrite IH by (intros; apply Htie; simpl; auto). reflexivity.
  - intros y Hy. apply Htie; simpl; auto.
    right. eapply Permutation_in; [apply Permutation_sym, js_sort_perm | exact Hy].
Qed.

Variable D : A -> Prop.
Hypothesis after_asym :
  forall x y, D x -> D y -> comes_after cmp x y = true -> not_after cmp y x.
Hypothesis not_after_trans :
  forall x y z, D x -> D y -> D z ->
    not_after cmp x y -> not_after cmp y z -> not_after cmp x z.

Lemma sort_insert_sorted (x : A) (l : list A) :
  D x -> Forall D l -> StronglySorted (not_after cmp) l ->
  StronglySorted (not_after cmp) (sort_insert cmp x l).
Proof.
  intros Dx Dl Hs. induction Hs as [|y l Hs IH Hy]; simpl.
  - repeat constructor.
  - inversion Dl as [|? ? Dy Dl']; subst.
    destruct (comes_after cmp x y) eqn:Hxy.
    + constructor; [now apply IH|].
      rewrite <- sort_insert_perm. constructor; [now apply after_asym | exact Hy].
    + constructor; [now constructor|].
      constructor; [exact Hxy|].
      rewrite Forall_forall in *. intros z Hz.
      apply (not_after_trans x y z); auto.
Qed.

Lemma js_sort_sorted (l : list A) :
  Forall D l -> StronglySorted (not_after cmp) (js_sort cmp l).
Proof.
  induction 1 as [|x l Dx Dl IH]; simpl; [constructor|].
  apply sort_insert_sorted; auto.
  rewrite <- js_sort_perm. exact Dl.
Qed.

Lemma js_sort_idempotent (l : list A) :
  Forall D l -> js_sort cmp (js_sort cmp l) = js_sort cmp l.
Proof. intros Dl. now apply js_sort_fixed, js_sort_sorted. Qed.

Lemma not_after_refl (x : A) : D x -> not_after cmp x x.
Proof.
  intros Dx. unfold not_after. destruct (comes_after cmp x x) eqn:Hxx; [|reflexivity].
  pose proof (after_asym x x Dx Dx Hxx) as H. unfold not_after in H. congruence.
Qed.

Lemma tied_spec (x y : A) :
  tied cmp x y = true <-> not_after cmp x y /\ not_after cmp y x.
Proof.
  unfold tied, not_after. rewrite andb_true_iff, !negb_true_iff. tauto.
Qed.

Lemma js_sort_keeps_ties (x : A) (l : list A) :
  D x -> Forall D l ->
  filter (tied cmp x) (js_sort cmp l) = filter (tied cmp x) l.
Proof.
  intros Dx Dl. apply js_sort_stable. rewrite Forall_forall in Dl.
  intros y z Hy Hz Hxy Hxz. apply tied_spec in Hxy, Hxz.
  apply (not_after_trans y x z); auto; tauto.
Qed.

(** A consistent comparator leaves a stable sort no choice: two sorted
    arrangements of the same elements that keep tied elements in the same
    order are equal. *)
Lemma stable_sort_unique (l1 l2 : list A) :
  Forall D l1 ->
  StronglySorted (not_after cmp) l1 -> StronglySorted (not_after cmp) l2 ->
  Permutation l1 l2 ->
  (forall x, In x l1 -> filter (tied cmp x) l1 = filter (tied cmp x) l2) ->
  l1 = l2.
Proof.
  revert l2. induction l1 as [|a l1 IH]; intros l2 Dl S1 S2 Hperm Hties.
  - now apply Permutation_nil in Hperm.
  - destruct l2 as [|b l2].
    { apply Permutation_sym, Permutation_nil in Hperm. discriminate. }
    inversion Dl as [|? ? Da Dl1]; subst.
    inversion S1 as [|? ? S1' Ha]; subst.
    inversion S2 as [|? ? S2' Hb]; subst.
    rewrite Forall_forall in Ha, Hb.
    assert (Hab : not_after cmp a b).
    { assert (Hin : In b (a :: l1))
        by (apply (Permutation_in _ (Permutation_sym Hperm)); now left).
      destruct Hin as [<- | Hin]; [now apply not_after_refl | now apply Ha]. }
    assert (Hba : not_after cmp b a).
    { assert (Hin : In a (b :: l2)) by (apply (Permutation_in _ Hperm); now left).
      destruct Hin as [-> | Hin]; [now apply not_after_refl | now apply Hb]. }
    assert (Heq : a = b).
    { specialize (Hties a (or_introl eq_refl)). cbn [filter] in Hties.
      rewrite (proj2 (tied_spec a a)) in Hties
        by (split; now apply not_after_refl).
      rewrite (proj2 (tied_spec a b)) in Hties by (now split).
      congruence. }
    subst b. f_equal. apply IH; auto.
    + now apply Permutation_cons_inv in Hperm.
    + intros x Hx. specialize (Hties x (or_intror Hx)). cbn [filter] in Hties.
      destruct (tied cmp x a); congruence.
Qed.

(** Hence the result of [js_sort] is the result of any stable sort. *)
Lemma js_sort_canonical (l l' : list A) :
  Forall D l ->
  Permutation l l' ->
  StronglySorted (not_after cmp) l' ->
  (forall x, In x l -> filter (tied cmp x) l' = filter (tied cmp x) l) ->
  l' = js_sort cmp l.
Proof.
  intros Dl Hperm Hsorted Hties. symmetry.
  assert (Dsorted : Forall D (js_sort cmp l)) by (now rewrite <- js_sort_perm).
  apply stable_sort_unique; auto.
  - now apply js_sort_sorted.
  - now rewrite <- js_sort_perm.
  - intros x Hx. apply (Permutation_in _ (Permutation_sym (js_sort_perm l))) in Hx.
    rewrite Forall_forall in Dl.
    rewrite js_sort_keeps_ties by (auto; now apply Forall_forall).
    symmetry. now apply Hties.
Qed.

End SortFacts.

Section ComparatorFacts.

Context `{DR : DateRuntime}.

Ltac open_cmp :=
  unfold has_date, not_after, comes_after, SortCompare,
    compare_dueDate, compare_created, compare_priority, date_minus in *.

Ltac split_dates :=
  repeat match goal with
    | t : Task |- _ =>
        match goal with
        | |- context [Date_parse (dueDate t)] => destruct (Date_parse (dueDate t))
        | H : context [Date_parse (dueDate t)] |- _ => destruct (Date_parse (dueDate t))
        | |- context [Date_parse (createdAt t)] => destruct (Date_parse (createdAt t))
        | H : context [Date_parse (createdAt t)] |- _ => destruct (Date_parse (createdAt t))
        | |- context [truthy_string (dueDate t)] => destruct (truthy_string (dueDate t))
        | H : context [truthy_string (dueDate t)] |- _ => destruct (truthy_string (dueDate t))
        end
    end.

Ltac finish :=
  cbn in *; try discriminate; try reflexivity;
  repeat match goal with
    | H : (_ <? _) = true |- _ => apply Z.ltb_lt in H
    | H : (_ <? _) = false |- _ => apply Z.ltb_ge in H
    | |- (_ <? _) = false => apply Z.ltb_ge
    | |- (_ <? _) = true => apply Z.ltb_lt
    end; try lia.

Lemma well_formed_comparable (sortBy : string) (t : Task) :
  well_formed t = true -> comparable sortBy t = true.
Proof.
  unfold well_formed, comparable. intros H. apply andb_true_iff in H as [Hdue Hcreated].
  destruct (sortBy =? "dueDate")%string; [exact Hdue|].
  destruct (sortBy =? "priority")%string; [reflexivity | exact Hcreated].
Qed.

(** On comparable tasks the comparator of each criterion is consistent:
    "not behind" is total and transitive. *)
Lemma comparator_asym (sortBy : string) (x y : Task) :
  comparable sortBy x = true -> comparable sortBy y = true ->
  comes_after (sort_comparator sortBy) x y = true ->
  not_after (sort_comparator sortBy) y x.
Proof.
  unfold sort_comparator, comparable.
  destruct (sortBy =? "dueDate")%string; [|destruct (sortBy =? "priority")%string];
    open_cmp; intros; split_dates; finish.
Qed.

Lemma comparator_trans (sortBy : string) (x y z : Task) :
  comparable sortBy x = true -> comparable sortBy y = true -> comparable sortBy z = true ->
  not_after (sort_comparator sortBy) x y ->
  not_after (sort_comparator sortBy) y z ->
  not_after (sort_comparator sortBy) x z.
Proof.
  unfold sort_comparator, comparable.
  destruct (sortBy =? "dueDate")%string; [|destruct (sortBy =? "priority")%string];
    open_cmp; intros; split_dates; finish.
Qed.

End ComparatorFacts.

(** ** The array store *)

Module ArrayStoreFacts.
Import ArrayStore.

Lemma get_set_same (h : store) (r : ref) (elems : list Task) :
  (r < List.length h)%nat -> get (set h r elems) r = Some elems.
Proof.
  revert r. induction h as [|a h IH]; intros [|r] Hr; simpl in *; try lia.
  - reflexivity.
  - apply IH. lia.
Qed.

Lemma get_set_other (h : store) (r q : ref) (elems : list Task) :
  q <> r -> get (set h r elems) q = get h q.
Proof.
  revert r q. induction h as [|a h IH]; intros [|r] [|q] Hq; simpl;
    try reflexivity; try congruence.
  apply IH. congruence.
Qed.

Lemma get_bound (h : store) (r : ref) (elems : list Task) :
  get h r = Some elems -> (r < List.length h)%nat.
Proof. intros Hr. apply nth_error_Some. unfold get in Hr. congruence. Qed.

Lemma get_alloc_fresh (h : store) (elems : list Task) :
  get (h ++ [elems]) (List.length h) = Some elems.
Proof. unfold get. now rewrite nth_error_app2, Nat.sub_diag by lia. Qed.

Lemma get_alloc_other (h : store) (elems : list Task) (q : ref) :
  q <> List.length h -> get (h ++ [elems]) q = get h q.
Proof.
  intros Hq. unfold get.
  destruct (Nat.lt_ge_cases q (List.length h)) as [Hlt | Hge].
  - now apply nth_error_app1.
  - transitivity (@None (list Task)); [|symmetry]; apply nth_error_None.
    + rewrite length_app. simpl. lia.
    + exact Hge.
Qed.

Lemma length_set (h : store) (r : ref) (elems : list Task) :
  List.length (set h r elems) = List.length h.
Proof. revert r. induction h as [|a h IH]; intros [|r]; simpl; auto. Qed.

End ArrayStoreFacts.

(** ** Sorting tasks *)

Section SortTasksFacts.

Context `{DR : DateRuntime}.

Lemma sortTasks_sorted (l : list Task) (sortBy : string) :
  forallb (comparable sortBy) l = true ->
  StronglySorted (not_after (sort_comparator sortBy)) (sortTasks l sortBy).
Proof.
  intros Hl. unfold sortTasks.
  apply (js_sort_sorted (sort_comparator sortBy) (fun t => comparable sortBy t = true)).
  - intros x y. apply comparator_asym.
  - intros x y z. apply comparator_trans.
  - apply Forall_forall. now apply forallb_forall.
Qed.

(** On comparable tasks the order [sortTasks] produces does not depend on
    the sorting algorithm of the engine, as long as it is stable. *)
Lemma sortTasks_canonical (l l' : list Task) (sortBy : string) :
  forallb (comparable sortBy) l = true ->
  Permutation l l' ->
  StronglySorted (not_after (sort_comparator sortBy)) l' ->
  (forall x, In x l ->
     filter (tied (sort_comparator sortBy) x) l' = filter (tied (sort_comparator sortBy) x) l) ->
  l' = sortTasks l sortBy.
Proof.
  intros Hl. unfold sortTasks.
  apply (js_sort_canonical (sort_comparator sortBy) (fun t => comparable sortBy t = true)).
  - intros x y. apply comparator_asym.
  - intros x y z. apply comparator_trans.
  - apply Forall_forall. now apply forallb_forall.
Qed.

Lemma filter_permutation (p : Task -> bool) (l l' : list Task) :
  Permutation l l' -> Permutation (filter p l) (filter p l').
Proof.
  induction 1 as [|x l l' _ IH|x y l|l l' l'' _ IH1 _ IH2]; simpl.
  - constructor.
  - destruct (p x); [now constructor | exact IH].
  - destruct (p x), (p y); try apply Permutation_refl. apply perm_swap.
  - now transitivity (filter p l').
Qed.

Lemma filter_sorted (R : Task -> Task -> Prop) (p : Task -> bool) (l : list Task) :
  StronglySorted R l -> StronglySorted R (filter p l).
Proof.
  induction 1 as [|x l Hs IH Hx]; simpl; [constructor|].
  destruct (p x); [|exact IH].
  constructor; [exact IH|].
  rewrite Forall_forall in *. intros y Hy. apply filter_In in Hy. now apply Hx.
Qed.

Lemma sorted_weaken (R R' : Task -> Task -> Prop) (P : Task -> Prop) (l : list Task) :
  (forall a b, P a -> P b -> R a b -> R' a b) ->
  Forall P l -> StronglySorted R l -> StronglySorted R' l.
Proof.
  intros HR HP Hs. induction Hs as [|x l Hs IH Hx]; [constructor|].
  inversion HP as [|? ? Px Pl]; subst.
  constructor; [now apply IH|].
  rewrite Forall_forall in *. intros y Hy. apply HR; auto.
Qed.

(** In an array ordered by the due-date comparator no task without a due
    date stands before a task with one. *)
Lemma dueDate_sorted_split (l : list Task) :
  StronglySorted (not_after compare_dueDate) l ->
  l = filter (fun t => truthy_string (dueDate t)) l
      ++ filter (fun t => negb (truthy_string (dueDate t))) l.
Proof.
  induction 1 as [|x l Hs IH Hx]; [reflexivity|].
  cbn [filter]. destruct (truthy_string (dueDate x)) eqn:Hdx; cbn [negb].
  - simpl. now rewrite <- IH.
  - assert (Hall : forall y, In y l -> truthy_string (dueDate y) = false).
    { rewrite Forall_forall in Hx. intros y Hy. specialize (Hx y Hy).
      unfold not_after, comes_after, SortCompare, compare_dueDate in Hx.
      rewrite Hdx in Hx. destruct (truthy_string (dueDate y)); [|reflexivity].
      discriminate Hx. }
    assert (Hnone : filter (fun t => truthy_string (dueDate t)) l = []).
    { clear -Hall. induction l as [|y l IHl]; [reflexivity|]. simpl.
      rewrite (Hall y) by (now left). apply IHl. intros; apply Hall; now right. }
    assert (Hsame : filter (fun t => negb (truthy_string (dueDate t))) l = l).
    { clear -Hall. induction l as [|y l IHl]; [reflexivity|]. simpl.
      rewrite (Hall y) by (now left). simpl. f_equal.
      apply IHl. intros; apply Hall; now right. }
    now rewrite Hnone, Hsame.
Qed.

End SortTasksFacts.

(** C4. [sortTasks] leaves the array it is given as it was and answers with
    a new array; the new array is a permutation of the input; sorting its
    contents again by the same criterion changes nothing; and under the
    criterion ["priority"] the tasks of each rank keep their input order.
    Idempotence is stated for the task lists of the data model, on which the
    comparator of the criterion is consistent: every due date absent or
    readable for ["dueDate"], every creation stamp readable for ["created"],
    any list for ["priority"]. *)
Theorem sortTasks_permutation_idempotent_stable :
  forall `{DR : DateRuntime} (h : ArrayStore.store) (r : ArrayStore.ref)
         (l : list Task) (sortBy : string),
    ArrayStore.get h r = Some l ->
    exists (r' : ArrayStore.ref) (h' : ArrayStore.store),
      ArrayStore.sortTasks h r sortBy = Some (r', h')
      /\ r' <> r
      /\ (forall q, q <> r' -> ArrayStore.get h' q = ArrayStore.get h q)
      /\ ArrayStore.get h' r' = Some (sortTasks l sortBy)
      /\ Permutation l (sortTasks l sortBy)
      /\ (forallb (comparable sortBy) l = true ->
          sortTasks (sortTasks l sortBy) sortBy = sortTasks l sortBy)
      /\ sortTasks (sortTasks l "priority") "priority" = sortTasks l "priority"
      /\ (forall rank : Z,
            filter (fun t => priorityOrder (priority t) =? rank) (sortTasks l "priority")
            = filter (fun t => priorityOrder (priority t) =? rank) l).
Proof.
  intros DR h r l sortBy Hget.
  exists (List.length h), (ArrayStore.set (h ++ [l]) (List.length h) (sortTasks l sortBy)).
  pose proof (ArrayStoreFacts.get_bound h r l Hget) as Hr.
  assert (Hidem : forall criterion,
             forallb (comparable criterion) l = true ->
             sortTasks (sortTasks l criterion) criterion = sortTasks l criterion).
  { intros criterion Hl.
    change (js_sort (sort_comparator criterion) (sortTasks l criterion)
            = sortTasks l criterion).
    now apply js_sort_fixed, sortTasks_sorted. }
  split.
  { unfold ArrayStore.sortTasks, ArrayStore.alloc, ArrayStore.sort_in_place.
    now rewrite Hget, ArrayStoreFacts.get_alloc_fresh. }
  split; [lia|].
  split.
  { intros q Hq.
    now rewrite ArrayStoreFacts.get_set_other, ArrayStoreFacts.get_alloc_other. }
  split.
  { apply ArrayStoreFacts.get_set_same. rewrite length_app. simpl. lia. }
  split; [apply js_sort_perm|].
  split; [apply Hidem|].
  split.
  { apply Hidem. apply forallb_forall. reflexivity. }
  intros rank. apply js_sort_stable.
  intros x y _ _ Hx Hy. apply Z.eqb_eq in Hx, Hy.
  unfold not_after, comes_after, SortCompare, sort_comparator, compare_priority; simpl.
  apply Z.ltb_ge. lia.
Qed.

(** C7. Sorted by ["dueDate"], the tasks that have a due date come first,
    in ascending order of their dates, and the tasks without one follow, in
    the order they had in the input.  The due dates are those of the data
    model: absent, or readable as a date. *)
Theorem sortTasks_dueDate_order :
  forall `{DR : DateRuntime} (l : list Task),
    forallb (comparable "dueDate") l = true ->
    let dated := fun t : Task => truthy_string (dueDate t) in
    let undated := fun t : Task => negb (truthy_string (dueDate t)) in
    let sorted := sortTasks l "dueDate" in
    sorted = filter dated sorted ++ filter undated l
    /\ Permutation (filter dated l) (filter dated sorted)
    /\ StronglySorted
         (fun a b => forall x y,
              Date_parse (dueDate a) = Some x -> Date_parse (dueDate b) = Some y -> x <= y)
         (filter dated sorted)
    /\ Forall (fun t => exists x, Date_parse (dueDate t) = Some x) (filter dated sorted).
Proof.
  intros DR l Hl dated undated sorted.
  assert (Hsorted : StronglySorted (not_after compare_dueDate) sorted)
    by exact (sortTasks_sorted l "dueDate" Hl).
  assert (Hperm : Permutation l sorted) by apply js_sort_perm.
  assert (Hdates : Forall (fun t => exists x, Date_parse (dueDate t) = Some x)
                          (filter dated sorted)).
  { apply Forall_forall. intros t Ht. apply filter_In in Ht as [Ht Hd].
    apply (Permutation_in _ (Permutation_sym Hperm)) in Ht.
    pose proof (proj1 (forallb_forall _ _) Hl t Ht) as Hc.
    unfold comparable, has_date, dated in *. simpl in Hc. rewrite Hd in Hc. simpl in Hc.
    destruct (Date_parse (dueDate t)) as [x|]; [now exists x | discriminate]. }
  split.
  { rewrite (dueDate_sorted_split sorted Hsorted) at 1. f_equal.
    apply js_sort_stable. intros x y _ _ Hx Hy.
    unfold not_after, comes_after, SortCompare, sort_comparator, compare_dueDate; simpl.
    apply negb_true_iff in Hx, Hy. now rewrite Hx, Hy. }
  split; [now apply filter_permutation|].
  split; [|exact Hdates].
  apply (sorted_weaken (not_after compare_dueDate) _ (fun t => dated t = true)).
  - intros a b Da Db Hab x y Hx Hy.
    unfold not_after, comes_after, SortCompare, compare_dueDate, date_minus, dated in *.
    rewrite Da, Db, Hx, Hy in Hab. simpl in Hab. apply Z.ltb_ge in Hab. lia.
  - apply Forall_forall. intros t Ht. now apply filter_In in Ht as [_ Hd].
  - now apply filter_sorted.
Qed.

(** ** Priority and due-date status *)

(** [ceil_div a b] is the ceiling of the quotient: the one integer [n]
    with [n - 1 < a / b <= n]. *)
Lemma ceil_div_spec (a b n : Z) :
  0 < b -> (ceil_div a b = n <-> b * (n - 1) < a <= b * n).
Proof.
  intros Hb. unfold ceil_div. split.
  - intros <-.
    pose proof (Z.mul_div_le (- a) b Hb).
    pose proof (Z.mul_succ_div_gt (- a) b Hb). lia.
  - intros Hn.
    assert (Hq : - n = - a / b).
    { apply (Z.div_unique (- a) b (- n) (b * n - a)); lia. }
    lia.
Qed.

(** C3. With [diffDays] the ceiling of (due date at midnight - now) in
    days, [calculatePriority] answers [low] without a due date, [overdue]
    for [diffDays < 0], [high] for 0 and 1, [medium] for 2 and 3, and [low]
    beyond.  The instant "now" is the reading of the clock at the call. *)
Theorem calculatePriority_rule :
  forall `{DR : DateRuntime} (dueDate : option string) (w : World),
    (truthy dueDate = false -> calculatePriority dueDate w = Low)
    /\ (forall (d : string) (due days : Z),
          dueDate = Some d -> d <> "" -> Date_parse d = Some due ->
          MS_PER_DAY * (days - 1) < due - clock w <= MS_PER_DAY * days ->
          (days < 0 -> calculatePriority dueDate w = Overdue)
          /\ (days = 0 \/ days = 1 -> calculatePriority dueDate w = High)
          /\ (days = 2 \/ days = 3 -> calculatePriority dueDate w = Medium)
          /\ (3 < days -> calculatePriority dueDate w = Low)).
Proof.
  intros DR dueDate w. split.
  - destruct dueDate as [d|]; [|reflexivity].
    unfold calculatePriority, truthy. now intros ->.
  - intros d due days -> Hd Hdue Hdays.
    apply (ceil_div_spec (due - clock w) MS_PER_DAY days) in Hdays; [|reflexivity].
    unfold calculatePriority, truthy_string, diffDays.
    apply String.eqb_neq in Hd. rewrite Hd, Hdue, Hdays. cbn [negb num_ltb num_leb].
    repeat split; intros H;
      destruct (days <? 0) eqn:E0; destruct (days <=? 1) eqn:E1;
      destruct (days <=? 3) eqn:E3; try reflexivity; lia.
Qed.

(** C2, as the code has it.  [calculatePriority] and [getDueDateStatus] take
    the due date alone and read the current instant from the system clock:
    their result is fixed by the due date and that reading, whatever else
    the world holds.  [formatDate] does not read the clock: its result is
    fixed by its argument. *)
Theorem derivations_read_only_the_clock :
  forall `{DR : DateRuntime} (dueDate : option string) (w1 w2 : World),
    (clock w1 = clock w2 ->
     calculatePriority dueDate w1 = calculatePriority dueDate w2
     /\ getDueDateStatus dueDate w1 = getDueDateStatus dueDate w2)
    /\ formatDate dueDate w1 = formatDate dueDate w2.
Proof.
  intros DR dueDate w1 w2. split; [|reflexivity].
  intros Hclock. unfold calculatePriority, getDueDateStatus, diffDays.
  now rewrite Hclock.
Qed.

(** ** Validation *)

(** The four checks of [validateTask], each adding its message whether or
    not an earlier one did. *)
Lemma validateTask_errors `{DR : DateRuntime} (taskData : TaskData) :
  errors (validateTask taskData)
  = (if negb (truthy (data_text taskData))
        || match data_text taskData with
           | Some t => (String.length (trim t) =? 0)%nat
           | None => false
           end
     then ["Task text is required"] else [])
    ++ (match data_text taskData with
        | Some t =>
            if (500 <? String.length (trim t))%nat
            then ["Task text must be less than 500 characters"] else []
        | None => []
        end)
    ++ (match data_dueDate taskData with
        | Some d =>
            if negb (d =? "")%string && negb (has_date d)
            then ["Invalid due date format"] else []
        | None => []
        end)
    ++ (match data_tags taskData with
        | Some t => if (10 <? String.length t)%nat then ["Maximum 10 tags allowed"] else []
        | None => []
        end)
  /\ (isValid (validateTask taskData) = true <-> errors (validateTask taskData) = []).
Proof.
  split.
  - destruct taskData as [[t|] [d|] [g|]]; unfold validateTask, has_date, truthy, truthy_string;
      cbn [data_text data_dueDate data_tags];
      repeat match goal with
        | |- context [String.eqb ?s ""] => destruct (String.eqb s "") eqn:?
        | |- context [Date_parse ?s] => destruct (Date_parse s)
        | |- context [Nat.eqb ?a ?b] => destruct (Nat.eqb a b) eqn:?
        | |- context [Nat.ltb ?a ?b] => destruct (Nat.ltb a b) eqn:?
        end; cbn; try reflexivity;
      repeat match goal with
        | H : String.eqb _ "" = true |- _ => apply String.eqb_eq in H; subst
        end; cbn in *; try discriminate.
  - unfold validateTask; cbn [isValid errors].
    match goal with |- (List.length ?l =? 0)%nat = true <-> _ => destruct l end;
      simpl; split; congruence.
Qed.

(** C1, at an input where it fails.  The tag check of [validateTask]
    compares the length of the tags string, in characters, with 10, not the
    number of parsed tags: two tags in thirteen characters are refused with
    the message about ten tags. *)
Theorem validateTask_limits_tag_characters :
  forall `{DR : DateRuntime},
    let input :=
      {| data_text := Some "Buy milk";
         data_dueDate := Some "";
         data_tags := Some "#work #urgent" |} in
    parseTags (data_tags input) = ["#work"; "#urgent"]
    /\ validateTask input
       = {| isValid := false; errors := ["Maximum 10 tags allowed"] |}.
Proof. intros DR. split; reflexivity. Qed.

(** The second example of the specification. *)
Example validateTask_example :
  validateTask {| data_text := Some ""; data_dueDate := Some ""; data_tags := Some "" |}
  = {| isValid := false; errors := ["Task text is required"] |}.
Proof. reflexivity. Qed.

(** ** Statistics *)

Lemma count_if_length {A : Type} (p : A -> bool) (l : list A) :
  Z.of_nat (List.length (filter p l)) = count_if p l.
Proof.
  induction l as [|x l IH]; [reflexivity|].
  simpl. destruct (p x); simpl List.length; lia.
Qed.

Lemma count_if_le {A : Type} (p q : A -> bool) (l : list A) :
  (forall x, p x = true -> q x = true) -> 0 <= count_if p l <= count_if q l.
Proof.
  intros Hpq. induction l as [|x l IH]; simpl; [lia|].
  specialize (Hpq x).
  destruct (p x), (q x); first [lia | discriminate (Hpq eq_refl)].
Qed.

Lemma count_if_complement {A : Type} (p : A -> bool) (l : list A) :
  count_if p l + count_if (fun x => negb (p x)) l = Z.of_nat (List.length l).
Proof.
  induction l as [|x l IH]; [reflexivity|].
  cbn [count_if List.length]. destruct (p x); simpl negb; lia.
Qed.

Lemma is_overdue_spec `{DR : DateRuntime} (w : World) (task : Task) :
  is_overdue w task = true
  <-> dueDate task <> "" /\ completed task = false
      /\ exists due, Date_parse (dueDate task) = Some due /\ due < clock w.
Proof.
  unfold is_overdue, truthy_string, num_ltb.
  rewrite !andb_true_iff, !negb_true_iff, String.eqb_neq.
  destruct (Date_parse (dueDate task)) as [due|].
  - rewrite Z.ltb_lt. split.
    + intros [[Hd Hc] Hlt]. eauto.
    + intros (Hd & Hc & due' & Heq & Hlt). injection Heq as <-. auto.
  - split; [intros [_ H]; discriminate H|].
    intros (_ & _ & due & Heq & _). discriminate Heq.
Qed.

(** The counts of [getTaskStats]: the tasks ([total]), the completed ones
    ([completed]), the rest ([pending] = [total] - [completed]) and the
    tasks that are not completed and whose due date lies strictly before the
    reading of the clock ([overdue]), with [overdue <= pending <= total].
    The last part records the expression the source evaluates for the
    completion rate: 0 for an empty list and otherwise [Math.round] of the
    binary64 product [(completed / total) * 100]. *)
Theorem getTaskStats_counts :
  forall `{DR : DateRuntime} (tasks : list Task) (w : World),
    let stats := getTaskStats tasks w in
    stats_total stats = Z.of_nat (List.length tasks)
    /\ stats_completed stats = count_if completed tasks
    /\ stats_pending stats = stats_total stats - stats_completed stats
    /\ stats_pending stats = count_if (fun t => negb (completed t)) tasks
    /\ stats_overdue stats = count_if (is_overdue w) tasks
    /\ (forall t, is_overdue w t = true
                  <-> dueDate t <> "" /\ completed t = false
                      /\ exists due, Date_parse (dueDate t) = Some due /\ due < clock w)
    /\ 0 <= stats_overdue stats <= stats_pending stats
    /\ stats_pending stats <= stats_total stats
    /\ stats_completionRate stats
       = match tasks with
         | [] => 0
         | _ :: _ =>
             Math_round
               (Number_mul
                  (Number_div (Number_ofZ (stats_completed stats))
                              (Number_ofZ (stats_total stats)))
                  (Number_ofZ 100))
         end.
Proof.
  intros DR tasks w stats. subst stats. unfold getTaskStats.
  cbn [stats_total stats_completed stats_pending stats_overdue stats_completionRate].
  rewrite !count_if_length.
  pose proof (count_if_complement completed tasks) as Hsum.
  pose proof (count_if_le (is_overdue w) (fun t => negb (completed t)) tasks) as Hov.
  pose proof (count_if_le completed (fun _ => true) tasks) as Hpe.
  assert (Hsub : forall t, is_overdue w t = true -> negb (completed t) = true).
  { intros t Ht. apply is_overdue_spec in Ht as (_ & Hc & _). now rewrite Hc. }
  split; [reflexivity|].
  split; [reflexivity|].
  split; [reflexivity|].
  split; [lia|].
  split; [reflexivity|].
  split; [intros t; apply is_overdue_spec|].
  split; [specialize (Hov Hsub); lia|].
  split; [specialize (Hpe (fun _ _ => eq_refl)); lia|].
  destruct tasks; reflexivity.
Qed.

(** ** Filtering by tag *)

(** C8. With an empty or absent tag [filterTasksByTag] hands back the array
    it was given, untouched.  Otherwise it answers with a new array holding,
    in their order, exactly the tasks one of whose tags equals the given tag
    up to letter case; the input array stays as it was. *)
Theorem filterTasksByTag_selects :
  forall (h : ArrayStore.store) (r : ArrayStore.ref) (l : list Task)
         (tagFilter : option string),
    ArrayStore.get h r = Some l ->
    (truthy tagFilter = false ->
       ArrayStore.filterTasksByTag h r tagFilter = Some (r, h)
       /\ filterTasksByTag l tagFilter = l)
    /\ (forall tag : string, tagFilter = Some tag -> tag <> "" ->
          exists (r' : ArrayStore.ref) (h' : ArrayStore.store) (keep : Task -> bool),
            ArrayStore.filterTasksByTag h r tagFilter = Some (r', h')
            /\ ArrayStore.get h' r' = Some (filterTasksByTag l tagFilter)
            /\ (forall q, q <> r' -> ArrayStore.get h' q = ArrayStore.get h q)
            /\ r' <> r
            /\ filterTasksByTag l tagFilter = filter keep l
            /\ (forall t, keep t = true
                          <-> exists own, In own (tags t)
                                          /\ toLowerCase own = toLowerCase tag)).
Proof.
  intros h r l tagFilter Hget. split.
  - intros Hfalsy. unfold ArrayStore.filterTasksByTag, filterTasksByTag.
    rewrite Hfalsy. split; [reflexivity|].
    destruct tagFilter as [f|]; [|reflexivity].
    simpl in Hfalsy. now rewrite Hfalsy.
  - intros tag -> Htag. apply String.eqb_neq in Htag.
    exists (List.length h), (h ++ [filter (tag_matches tag) l]), (tag_matches tag).
    unfold ArrayStore.filterTasksByTag, filterTasksByTag, truthy, truthy_string.
    rewrite Htag, Hget. cbn [negb].
    split; [reflexivity|].
    split; [apply ArrayStoreFacts.get_alloc_fresh|].
    split; [intros q Hq; now apply ArrayStoreFacts.get_alloc_other|].
    split; [apply ArrayStoreFacts.get_bound in Hget; lia|].
    split; [reflexivity|].
    intros t. unfold tag_matches. rewrite existsb_exists.
    split; intros [own [Hin Heq]]; exists own; split; auto;
      now apply String.eqb_eq.
Qed.

(** The fifth example of the specification. *)
Example filterTasksByTag_example :
  let work := mkTask "1" "report" false "" ["#work"] "2024-01-01T00:00:00.000Z" Low in
  let home := mkTask "2" "laundry" false "" ["#home"] "2024-01-02T00:00:00.000Z" Low in
  filterTasksByTag [work; home] (Some "#Work") = [work].
Proof. reflexivity. Qed.

(** ** The controller *)

Section ControllerFacts.

Context `{DR : DateRuntime}.

Lemma tasks_saveAndRender (w : World) (app : App) :
  tasks (saveAndRender w app) = tasks app.
Proof.
  unfold saveAndRender, render, saveTasks, with_ui.
  destruct (storage_writable w); reflexivity.
Qed.

(** [find] and the update in place single out the same task: the first
    one that satisfies the test. *)
Lemma find_update_first (p : Task -> bool) (f : Task -> Task) (l : list Task) (t : Task) :
  find p l = Some t ->
  exists before after,
    l = before ++ t :: after
    /\ update_first p f l = before ++ f t :: after
    /\ Forall (fun t' => p t' = false) before
    /\ p t = true.
Proof.
  induction l as [|a l IH]; simpl; [discriminate|].
  destruct (p a) eqn:Hpa.
  - intros [= ->]. exists [], l. repeat split; auto.
  - intros Hfind. destruct (IH Hfind) as (before & after & Hl & Hu & Hb & Hp).
    exists (a :: before), after. simpl. rewrite <- Hl, <- Hu. repeat split; auto.
Qed.

Lemma invalid_has_errors (taskData : TaskData) :
  isValid (validateTask taskData) = false -> errors (validateTask taskData) <> [].
Proof.
  intros Hinv Hnil. apply (validateTask_errors taskData) in Hnil. congruence.
Qed.

End ControllerFacts.

(** C9. When the form fails validation, submit and edit change nothing but
    the notification: the collection, the stored copy, the view parameters
    and the forms are as before, and the notification shows the validation
    messages joined by a comma, as an error.  An edit whose target is no
    longer in the collection does not get as far as validation: it closes
    the dialog and reports nothing. *)
Theorem failed_validation_rejects_mutation :
  forall `{DR : DateRuntime} (w : World) (app : App),
    (isValid (validateTask (getFormData (ui app))) = false ->
     let messages := errors (validateTask (getFormData (ui app))) in
     let app' := handleTaskSubmit w app in
     app' = with_ui (showNotification (join ", " messages) type_error (ui app)) app
     /\ messages <> []
     /\ tasks app' = tasks app
     /\ storage app' = storage app
     /\ notification (ui app') = Some (join ", " messages, type_error)
     /\ tasksList (ui app') = tasksList (ui app)
     /\ getFormData (ui app') = getFormData (ui app))
    /\ (isValid (validateTask (getEditFormData (ui app))) = false ->
        let messages := errors (validateTask (getEditFormData (ui app))) in
        let app' := handleEditSubmit w app in
        messages <> []
        /\ tasks app' = tasks app
        /\ storage app' = storage app
        /\ tasksList (ui app') = tasksList (ui app)
        /\ match find (id_is (editModal_taskId (ui app))) (tasks app) with
           | Some _ =>
               app' = with_ui (showNotification (join ", " messages) type_error (ui app)) app
               /\ notification (ui app') = Some (join ", " messages, type_error)
               /\ getEditFormData (ui app') = getEditFormData (ui app)
           | None =>
               app' = with_ui (hideEditModal (ui app)) app
               /\ notification (ui app') = notification (ui app)
           end).
Proof.
  intros DR w app. split; intros Hinv messages app'; subst messages app'.
  - pose proof (invalid_has_errors _ Hinv) as Hne.
    unfold handleTaskSubmit. rewrite Hinv. cbn [negb].
    repeat split; auto.
  - pose proof (invalid_has_errors _ Hinv) as Hne.
    unfold handleEditSubmit.
    destruct (find (id_is (editModal_taskId (ui app))) (tasks app)) as [task|].
    + rewrite Hinv. cbn [negb]. repeat split; auto.
    + repeat split; auto.
Qed.

(** C10. A valid edit of a task of the collection replaces that task, in
    its place, by one with the same [id], [createdAt] and [completed] and
    with [text], [dueDate], [tags] and [priority] taken from the form; the
    tasks before and after it are the same. *)
Theorem edit_overwrites_only_four_fields :
  forall `{DR : DateRuntime} (w : World) (app : App) (task : Task),
    find (id_is (editModal_taskId (ui app))) (tasks app) = Some task ->
    isValid (validateTask (getEditFormData (ui app))) = true ->
    exists (before after : list Task) (task' : Task),
      tasks app = before ++ task :: after
      /\ tasks (handleEditSubmit w app) = before ++ task' :: after
      /\ Forall (fun t => id_is (editModal_taskId (ui app)) t = false) before
      /\ id task' = id task
      /\ createdAt task' = createdAt task
      /\ completed task' = completed task
      /\ text task' = trim (editTaskText (ui app))
      /\ dueDate task' = editDueDate (ui app)
      /\ tags task' = parseTags (Some (editTags (ui app)))
      /\ priority task' = calculatePriority (Some (editDueDate (ui app))) w.
Proof.
  intros DR w app task Hfind Hvalid.
  destruct (find_update_first _ (edit_task w (ui app)) _ _ Hfind)
    as (before & after & Hl & Hu & Hb & _).
  exists before, after, (edit_task w (ui app) task).
  split; [exact Hl|].
  split.
  { unfold handleEditSubmit. rewrite Hfind, Hvalid. cbn [negb].
    cbn [with_ui tasks]. rewrite tasks_saveAndRender. exact Hu. }
  split; [exact Hb|].
  repeat split.
Qed.

(** ** The properties on the sample data *)

(** C2, as the specification states it, fails: the same due date gives
    [high] on the morning of 9 January 2024 and [overdue] two days later,
    although nothing was passed to the two calls but the due date. *)
Lemma priority_changes_with_the_clock :
  let dueDate := Some "2024-01-10" in
  let w1 := {| clock := 1704790800000; entropy := ""; storage_writable := true |} in
  let w2 := {| clock := 1704963600000; entropy := ""; storage_writable := true |} in
  calculatePriority dueDate w1 = High
  /\ calculatePriority dueDate w2 = Overdue
  /\ calculatePriority dueDate w1 <> calculatePriority dueDate w2
  /\ getDueDateStatus dueDate w1 <> getDueDateStatus dueDate w2.
Proof.
  cbv zeta. repeat split; try reflexivity; vm_compute; intros H; discriminate H.
Qed.

Lemma derivations_read_only_the_clock_witness :
  let w1 := {| clock := 1704790800000; entropy := "k3x9"; storage_writable := true |} in
  let w2 := {| clock := 1704790800000; entropy := "p0q1"; storage_writable := false |} in
  clock w1 = clock w2
  /\ calculatePriority (Some "2024-01-10") w1 = calculatePriority (Some "2024-01-10") w2
  /\ getDueDateStatus (Some "2024-01-10") w1 = getDueDateStatus (Some "2024-01-10") w2
  /\ formatDate (Some "2024-01-10") w1 = formatDate (Some "2024-01-10") w2.
Proof.
  intros w1 w2.
  destruct (derivations_read_only_the_clock (DR := utc_date) (Some "2024-01-10") w1 w2) as [Hclock Hformat].
  destruct (Hclock eq_refl) as [Hpriority Hstatus].
  repeat split; assumption.
Defined.

Lemma calculatePriority_rule_witness :
  truthy (Some "") = false
  /\ calculatePriority (Some "") Samples.now = Low
  /\ Date_parse "2024-01-10" = Some 1704844800000
  /\ MS_PER_DAY * (1 - 1) < 1704844800000 - clock Samples.now <= MS_PER_DAY * 1
  /\ calculatePriority (Some "2024-01-10") Samples.now = High.
Proof.
  split; [reflexivity|].
  split; [apply (calculatePriority_rule (DR := utc_date) (Some "") Samples.now); reflexivity|].
  split; [reflexivity|].
  assert (Hdays : MS_PER_DAY * (1 - 1) < 1704844800000 - clock Samples.now <= MS_PER_DAY * 1)
    by (vm_compute; split; [reflexivity | discriminate]).
  split; [exact Hdays|].
  apply (proj2 (calculatePriority_rule (DR := utc_date) (Some "2024-01-10") Samples.now)
           "2024-01-10" 1704844800000 1 eq_refl);
    [discriminate | reflexivity | exact Hdays | right; reflexivity].
Defined.

Lemma sortTasks_permutation_idempotent_stable_witness :
  ArrayStore.get [Samples.collection] 0%nat = Some Samples.collection
  /\ forallb (comparable "created") Samples.collection = true
  /\ sortTasks (sortTasks Samples.collection "created") "created"
     = sortTasks Samples.collection "created"
  /\ Permutation Samples.collection (sortTasks Samples.collection "created").
Proof.
  split; [reflexivity|]. split; [reflexivity|].
  destruct (sortTasks_permutation_idempotent_stable (DR := utc_date)
              [Samples.collection] 0%nat Samples.collection "created" eq_refl)
    as (r' & h' & _ & _ & _ & _ & Hperm & Hidem & _).
  split; [exact (Hidem eq_refl) | exact Hperm].
Defined.

Lemma sortTasks_dueDate_order_witness :
  let l := [Samples.garden; Samples.report; Samples.laundry; Samples.rent; Samples.call] in
  forallb (comparable "dueDate") l = true
  /\ sortTasks l "dueDate"
     = filter (fun t => truthy_string (dueDate t)) (sortTasks l "dueDate")
       ++ filter (fun t => negb (truthy_string (dueDate t))) l.
Proof.
  intros l. split; [reflexivity|].
  exact (proj1 (sortTasks_dueDate_order (DR := utc_date) l eq_refl)).
Defined.

(** Sorted by due date: rent (8th), call (10th), report (12th), and then
    the two tasks without a date as they stood. *)
Example sortTasks_dueDate_example :
  sortTasks [Samples.garden; Samples.report; Samples.laundry; Samples.rent; Samples.call]
            "dueDate"
  = [Samples.rent; Samples.call; Samples.report; Samples.garden; Samples.laundry].
Proof. reflexivity. Qed.

(** The fourth example of the specification. *)
Example sortTasks_priority_example :
  map priority (sortTasks [Samples.laundry; Samples.rent; Samples.call] "priority")
  = [Overdue; High; Low].
Proof. reflexivity. Qed.

Example sortTasks_created_example :
  map id (sortTasks Samples.collection "created") = ["a4"; "a3"; "a2"; "a1"]
  /\ map id (sortTasks Samples.collection "anything") = ["a4"; "a3"; "a2"; "a1"].
Proof. split; reflexivity. Qed.

(** C5, at an input where the code misses it.  With 23 of 40 tasks
    completed the percentage is 57.5 exactly, and rounds to 58 whether a
    tie goes up or to the even neighbour; [Math.round] of the binary64
    quotient [(100 * 23) / 40] is 58 as well.  The source divides first:
    23 / 40 is not a binary64 number, its product with 100 falls just short
    of 57.5, and [getTaskStats] answers 57. *)
Theorem completionRate_23_of_40 :
  let stats := getTaskStats Samples.forty Samples.now in
  stats_total stats = 40
  /\ stats_completed stats = 23
  /\ 2 * (100 * stats_completed stats) = (2 * 57 + 1) * stats_total stats
  /\ round_half_up (100 * stats_completed stats) (stats_total stats) = 58
  /\ round_half_even (100 * stats_completed stats) (stats_total stats) = 58
  /\ Math_round
       (Number_div (Number_mul (Number_ofZ 100) (Number_ofZ (stats_completed stats)))
                   (Number_ofZ (stats_total stats))) = 58
  /\ stats_completionRate stats = 57
  /\ stats_completionRate stats
     <> round_half_up (100 * stats_completed stats) (stats_total stats).
Proof.
  cbv zeta. repeat split; try (vm_compute; reflexivity).
  vm_compute. intros H. discriminate H.
Qed.

Lemma getTaskStats_counts_witness :
  getTaskStats Samples.collection Samples.now
  = {| stats_total := 4; stats_completed := 1; stats_pending := 3;
       stats_overdue := 1; stats_completionRate := 25 |}
  /\ stats_pending (getTaskStats Samples.collection Samples.now)
     = count_if (fun t => negb (completed t)) Samples.collection
  /\ (is_overdue Samples.now Samples.rent = true
      <-> dueDate Samples.rent <> "" /\ completed Samples.rent = false
          /\ exists due, Date_parse (dueDate Samples.rent) = Some due
                         /\ due < clock Samples.now).
Proof.
  split; [vm_compute; reflexivity|].
  destruct (getTaskStats_counts (DR := utc_date) Samples.collection Samples.now)
    as (_ & _ & _ & Hpending & _ & Hoverdue & _).
  split; [exact Hpending | exact (Hoverdue Samples.rent)].
Defined.

(** The third example of the specification: four tasks, one completed, one
    due yesterday and not completed. *)
Example getTaskStats_example :
  getTaskStats Samples.collection Samples.now
  = {| stats_total := 4; stats_completed := 1; stats_pending := 3;
       stats_overdue := 1; stats_completionRate := 25 |}.
Proof. vm_compute. reflexivity. Qed.

(** The first example of the specification. *)
Example createTask_example :
  let task := createTask " Buy milk " (Some "2024-01-10") (Some "#home #home") Samples.now in
  text task = "Buy milk" /\ tags task = ["#home"] /\ priority task = High
  /\ completed task = false /\ createdAt task = "2024-01-09T09:00:00.000Z"
  /\ id task = "lr64fc00k3x9".
Proof. vm_compute. repeat split. Qed.

Lemma parseTags_correct_witness :
  truthy (Some "") = false
  /\ parseTags (Some "") = []
  /\ (In "#home" (parseTags (Some "#Home #home"))
      <-> exists token, In token (split_ws "#Home #home") /\ startsWith token "#" = true
                        /\ "#home" = toLowerCase token).
Proof.
  split; [reflexivity|].
  split.
  - apply (proj1 (proj2 (parseTags_correct (Some "")))). reflexivity.
  - apply (proj2 (proj2 (proj2 (proj2 (proj2 (parseTags_correct (Some "#Home #home"))))))).
    reflexivity.
Defined.

Lemma filterTasksByTag_selects_witness :
  ArrayStore.get [Samples.collection] 0%nat = Some Samples.collection
  /\ ArrayStore.filterTasksByTag [Samples.collection] 0%nat (Some "")
     = Some (0%nat, [Samples.collection])
  /\ exists (r' : ArrayStore.ref) (h' : ArrayStore.store),
       ArrayStore.filterTasksByTag [Samples.collection] 0%nat (Some "#HOME") = Some (r', h')
       /\ ArrayStore.get h' r' = Some (filterTasksByTag Samples.collection (Some "#HOME"))
       /\ r' <> 0%nat.
Proof.
  pose proof (filterTasksByTag_selects [Samples.collection] 0%nat Samples.collection)
    as Hsel.
  split; [reflexivity|].
  split.
  - exact (proj1 (proj1 (Hsel (Some "") eq_refl) eq_refl)).
  - destruct (proj2 (Hsel (Some "#HOME") eq_refl) "#HOME" eq_refl)
      as (r' & h' & keep & Hcall & Hget & _ & Hfresh & _).
    + discriminate.
    + exists r', h'. auto.
Defined.

Example filterTasksByTag_home_example :
  map id (filterTasksByTag Samples.collection (Some "#HOME")) = ["a2"; "a4"].
Proof. reflexivity. Qed.

Lemma failed_validation_rejects_mutation_witness :
  isValid (validateTask (getFormData (ui Samples.app))) = false
  /\ tasks (handleTaskSubmit Samples.now Samples.app) = tasks Samples.app
  /\ notification (ui (handleTaskSubmit Samples.now Samples.app))
     = Some ("Task text is required", type_error)
  /\ isValid (validateTask (getEditFormData (ui Samples.editing_blank))) = false
  /\ tasks (handleEditSubmit Samples.now Samples.editing_blank) = tasks Samples.editing_blank
  /\ storage (handleEditSubmit Samples.now Samples.editing_blank)
     = storage Samples.editing_blank.
Proof.
  destruct (failed_validation_rejects_mutation (DR := utc_date) Samples.now Samples.app)
    as [Hsubmit _].
  destruct (failed_validation_rejects_mutation (DR := utc_date) Samples.now
              Samples.editing_blank)
    as [_ Hedit].
  destruct (Hsubmit eq_refl) as (_ & _ & Htasks & _ & Hnote & _).
  destruct (Hedit eq_refl) as (_ & Htasks' & Hstore & _).
  repeat split; assumption.
Defined.

Lemma edit_overwrites_only_four_fields_witness :
  find (id_is (editModal_taskId (ui Samples.editing))) (tasks Samples.editing)
  = Some Samples.call
  /\ isValid (validateTask (getEditFormData (ui Samples.editing))) = true
  /\ exists (before after : list Task) (task' : Task),
       tasks (handleEditSubmit Samples.now Samples.editing) = before ++ task' :: after
       /\ tasks Samples.editing = before ++ Samples.call :: after
       /\ id task' = "a4"
       /\ createdAt task' = "2024-01-08T08:00:00.000Z".
Proof.
  split; [reflexivity|]. split; [reflexivity|].
  destruct (edit_overwrites_only_four_fields (DR := utc_date)
              Samples.now Samples.editing Samples.call
              eq_refl eq_refl)
    as (before & after & task' & Hold & Hnew & _ & Hid & Hcreated & _).
  exists before, after, task'. auto.
Defined.

(** The edit of the sample, carried out. *)
Example handleEditSubmit_example :
  let app' := handleEditSubmit Samples.now Samples.editing in
  tasks app'
  = [Samples.report; Samples.laundry; Samples.rent;
     mkTask "a4" "Call Sam back" false "2024-01-11" ["#phone"]
            "2024-01-08T08:00:00.000Z" Medium]
  /\ storage app' = Some (tasks app')
  /\ notification (ui app') = Some ("Task updated successfully!", type_success)
  /\ editModal_taskId (ui app') = None
  /\ map (fun v => id (view_task v)) (tasksList (ui app')) = ["a4"; "a3"; "a2"; "a1"]
  /\ taskCount (ui app') = "(4)"
  /\ tagFilter_options (ui app') = ["#home"; "#phone"; "#work"].
Proof. vm_compute. repeat split. Qed.

Example handleTaskSubmit_example :
  let filled :=
    with_ui (mkUI " Buy milk " "2024-01-10" "#home" "" "" "" false None [] "(4)" [] "" None)
            Samples.app in
  let app' := handleTaskSubmit Samples.now filled in
  map text (tasks app') = ["Buy milk"; "Write report"; "Laundry"; "Pay rent"; "Call Sam"]
  /\ storage app' = Some (tasks app')
  /\ getFormData (ui app')
     = {| data_text := Some ""; data_dueDate := Some ""; data_tags := Some "" |}
  /\ notification (ui app') = Some ("Task added successfully!", type_success).
Proof. vm_compute. repeat split. Qed.

(** * The rest of the task model and of the controller *)

(** ** Trimming *)


Lemma trimStart_head_ok (s : string) : head_ok (trimStart s) = true.
Proof.
  induction s as [|c s IH]; simpl; [reflexivity|].
  destruct (is_whitespace c) eqn:Hc; [exact IH|]. simpl. now rewrite Hc.
Qed.

Lemma trimStart_fixed (s : string) : head_ok s = true -> trimStart s = s.
Proof.
  destruct s as [|c s]; simpl; [reflexivity|].
  intros Hc. apply negb_true_iff in Hc. now rewrite Hc.
Qed.

Lemma trimEnd_head_ok (s : string) : head_ok s = true -> head_ok (trimEnd s) = true.
Proof.
  destruct s as [|c s]; simpl; [reflexivity|].
  intros Hc. apply negb_true_iff in Hc. rewrite Hc.
  destruct (trimEnd s); simpl; now rewrite Hc.
Qed.

Lemma trimEnd_idempotent (s : string) : trimEnd (trimEnd s) = trimEnd s.
Proof.
  induction s as [|c s IH]; simpl; [reflexivity|].
  destruct (trimEnd s) as [|d r] eqn:Hr.
  - destruct (is_whitespace c) eqn:Hc; simpl; [reflexivity|]. now rewrite Hc.
  - cbn [trimEnd] in *. fold trimEnd in *. now rewrite IH.
Qed.

Lemma trim_idempotent (s : string) : trim (trim s) = trim s.
Proof.
  unfold trim.
  rewrite (trimStart_fixed (trimEnd (trimStart s))).
  - apply trimEnd_idempotent.
  - apply trimEnd_head_ok, trimStart_head_ok.
Qed.

Lemma length_zero_empty (s : string) : String.length s = 0%nat <-> s = "".
Proof. destruct s; simpl; split; congruence. Qed.

(** ** Splitting and joining *)

Lemma append_assoc (a b c : string) : ((a ++ b) ++ c = a ++ (b ++ c))%string.
Proof. induction a as [|x a IH]; simpl; congruence. Qed.

Lemma append_empty_r (a : string) : (a ++ "")%string = a.
Proof. induction a as [|x a IH]; simpl; congruence. Qed.

Lemma append_length (a b : string) :
  String.length (a ++ b) = (String.length a + String.length b)%nat.
Proof. induction a as [|x a IH]; simpl; congruence. Qed.

Lemma split_from_token (t s cur : string) (in_run : bool) :
  has_whitespace t = false -> t <> "" ->
  split_from (t ++ s) cur in_run = split_from s (cur ++ t) false.
Proof.
  revert cur in_run. induction t as [|c t IH]; intros cur in_run Hws Hne; [congruence|].
  simpl in Hws. apply orb_false_iff in Hws as [Hc Ht].
  cbn [append split_from]. rewrite Hc.
  destruct t as [|d t].
  - reflexivity.
  - rewrite IH by (auto; discriminate). now rewrite append_assoc.
Qed.


Lemma split_join (toks : list string) (in_run : bool) :
  toks <> [] -> Forall token_ok toks ->
  split_from (join " " toks) "" in_run = toks.
Proof.
  intros Hne Hall. revert in_run.
  induction Hall as [|t toks [Hws Ht] Hall IH]; intros in_run; [congruence|].
  destruct toks as [|t2 toks].
  - simpl. rewrite split_from_solid by exact Hws. reflexivity.
  - change (join " " (t :: t2 :: toks)) with (t ++ " " ++ join " " (t2 :: toks))%string.
    rewrite split_from_token by assumption.
    cbn [append split_from]. change (is_whitespace " "%char) with true. cbv iota.
    f_equal. apply IH. discriminate.
Qed.

(** ** The size of a list of tokens: each with one separator. *)


Lemma join_length (l : list string) :
  l <> [] -> (String.length (join " " l) + 1 = weight l)%nat.
Proof.
  induction l as [|x l IH]; [congruence|]. intros _.
  destruct l as [|y l].
  - simpl. lia.
  - change (join " " (x :: y :: l)) with (x ++ " " ++ join " " (y :: l))%string.
    specialize (IH ltac:(discriminate)).
    remember (join " " (y :: l)) as j.
    rewrite !append_length. change (String.length " ") with 1%nat.
    cbn [weight] in *. lia.
Qed.

Lemma join_length_le (l : list string) :
  (String.length (join " " l) <= weight l)%nat.
Proof.
  destruct l as [|x l]; [simpl; lia|].
  pose proof (join_length (x :: l) ltac:(discriminate)). lia.
Qed.

Lemma weight_split_from (s cur : string) (in_run : bool) :
  (weight (split_from s cur in_run) <= String.length cur + String.length s + 1)%nat.
Proof.
  revert cur in_run. induction s as [|c s IH]; intros cur in_run; simpl.
  - lia.
  - destruct (is_whitespace c).
    + destruct in_run.
      * specialize (IH cur true). lia.
      * specialize (IH "" true). simpl in *. lia.
    + specialize (IH (cur ++ String c "")%string false).
      rewrite append_length in IH. simpl in IH. lia.
Qed.

Lemma weight_filter (p : string -> bool) (l : list string) :
  (weight (filter p l) <= weight l)%nat.
Proof. induction l as [|x l IH]; simpl; [lia|]. destruct (p x); simpl; lia. Qed.

Lemma toLowerCase_length (s : string) : String.length (toLowerCase s) = String.length s.
Proof. induction s as [|c s IH]; simpl; congruence. Qed.

Lemma weight_map_toLowerCase (l : list string) : weight (map toLowerCase l) = weight l.
Proof. induction l as [|x l IH]; simpl; [reflexivity|]. now rewrite toLowerCase_length, IH. Qed.

Lemma weight_dedup_seen (seen l : list string) :
  (weight (dedup_seen seen l) <= weight l)%nat.
Proof.
  revert seen. induction l as [|x l IH]; intros seen; simpl; [lia|].
  destruct (existsb (String.eqb x) seen).
  - specialize (IH seen). lia.
  - specialize (IH (x :: seen)). simpl. lia.
Qed.

Lemma weight_parseTags (s : string) :
  (weight (parseTags (Some s)) <= String.length s + 1)%nat.
Proof.
  rewrite parseTags_refines. unfold parseTags_spec, remove_duplicates.
  eapply Nat.le_trans; [apply weight_dedup_seen|].
  rewrite weight_map_toLowerCase.
  eapply Nat.le_trans; [apply weight_filter|].
  apply (weight_split_from s "" false).
Qed.

Lemma weight_count (l : list string) :
  Forall (fun x => x <> "") l -> (2 * List.length l <= weight l)%nat.
Proof.
  induction 1 as [|x l Hx _ IH]; simpl; [lia|].
  destruct x as [|c x]; [congruence|]. simpl. lia.
Qed.

(** ** What [parseTags] writes *)

Lemma tag_ok_spec (tag : string) :
  tag_ok tag = true
  <-> startsWith tag "#" = true /\ has_whitespace tag = false /\ toLowerCase tag = tag.
Proof.
  unfold tag_ok. rewrite !andb_true_iff, negb_true_iff, String.eqb_eq. tauto.
Qed.

Lemma tag_ok_token (tag : string) : tag_ok tag = true -> token_ok tag.
Proof.
  intros H. apply tag_ok_spec in H as (Hhash & Hws & _). split; [exact Hws|].
  intros ->. discriminate Hhash.
Qed.

Lemma parseTags_In (input : option string) (tag : string) :
  In tag (parseTags input) ->
  exists s token, input = Some s /\ In token (split_ws s)
                  /\ startsWith token "#" = true /\ tag = toLowerCase token.
Proof.
  rewrite parseTags_refines. destruct input as [s|]; simpl; [|tauto].
  intros Htag. apply dedup_seen_In in Htag as [Htag _].
  apply in_map_iff in Htag as [token [Heq Htok]].
  apply filter_In in Htok as [Htok Hhash].
  exists s, token. auto.
Qed.

Lemma parseTags_tag_ok (input : option string) :
  Forall (fun tag => tag_ok tag = true) (parseTags input).
Proof.
  apply Forall_forall. intros tag Htag.
  apply parseTags_In in Htag as (s & token & _ & Htok & Hhash & ->).
  apply tag_ok_spec. split; [|split].
  - now rewrite startsWith_hash_toLowerCase.
  - rewrite has_whitespace_toLowerCase.
    pose proof (split_ws_no_whitespace s) as Hws. rewrite Forall_forall in Hws. auto.
  - apply toLowerCase_idempotent.
Qed.

Lemma parseTags_NoDup (input : option string) : NoDup (parseTags input).
Proof.
  rewrite parseTags_refines. destruct input; simpl; [|constructor].
  apply dedup_seen_NoDup.
Qed.

Lemma dedup_seen_fixed (seen l : list string) :
  NoDup l -> (forall x, In x l -> ~ In x seen) -> dedup_seen seen l = l.
Proof.
  intros Hnd. revert seen. induction Hnd as [|x l Hx Hnd IH]; intros seen Hseen; simpl.
  - reflexivity.
  - destruct (existsb (String.eqb x) seen) eqn:E.
    + apply existsb_eqb_In in E. exfalso. apply (Hseen x); simpl; auto.
    + f_equal. apply IH. intros y Hy [<- | Hin]; [tauto|].
      apply (Hseen y); simpl; auto.
Qed.

Lemma filter_all {A : Type} (p : A -> bool) (l : list A) :
  Forall (fun x => p x = true) l -> filter p l = l.
Proof. induction 1 as [|x l Hx _ IH]; simpl; [reflexivity|]. now rewrite Hx, IH. Qed.

Lemma map_fixed {A : Type} (f : A -> A) (l : list A) :
  Forall (fun x => f x = x) l -> map f l = l.
Proof. induction 1 as [|x l Hx _ IH]; simpl; [reflexivity|]. now rewrite Hx, IH. Qed.

(** The tags of a task, written into the edit form and read back. *)
Lemma parseTags_join (tags : list string) :
  NoDup tags -> Forall (fun tag => tag_ok tag = true) tags ->
  parseTags (Some (join " " tags)) = tags.
Proof.
  intros Hnd Hok. rewrite parseTags_refines. unfold parseTags_spec.
  destruct tags as [|t tags]; [reflexivity|].
  unfold split_ws. rewrite split_join.
  - rewrite filter_all, map_fixed.
    + apply dedup_seen_fixed; auto.
    + eapply Forall_impl; [|exact Hok]. intros tag H. now apply tag_ok_spec in H.
    + eapply Forall_impl; [|exact Hok]. intros tag H. now apply tag_ok_spec in H.
  - discriminate.
  - eapply Forall_impl; [|exact Hok]. intros tag H. now apply tag_ok_token.
Qed.

(** ** What validation lets through *)

Section ValidatedForms.

Context `{DR : DateRuntime}.

Lemma valid_form (t d g : string) :
  isValid (validateTask {| data_text := Some t; data_dueDate := Some d;
                           data_tags := Some g |}) = true ->
  trim t <> "" /\ (String.length (trim t) <= 500)%nat
  /\ (d = "" \/ has_date d = true) /\ (String.length g <= 10)%nat.
Proof.
  intros Hvalid.
  destruct (validateTask_errors {| data_text := Some t; data_dueDate := Some d;
                                   data_tags := Some g |}) as [Herr Hiff].
  apply Hiff in Hvalid. rewrite Hvalid in Herr. cbn [data_text data_dueDate data_tags] in Herr.
  symmetry in Herr.
  apply app_eq_nil in Herr as [H1 Herr].
  apply app_eq_nil in Herr as [H2 Herr].
  apply app_eq_nil in Herr as [H3 H4].
  split; [|split; [|split]].
  - destruct (negb (truthy (Some t)) || (String.length (trim t) =? 0)%nat) eqn:E;
      [discriminate|].
    apply orb_false_iff in E as [_ E]. apply Nat.eqb_neq in E.
    intros Hempty. rewrite Hempty in E. now apply E.
  - destruct (500 <? String.length (trim t))%nat eqn:E; [discriminate|].
    now apply Nat.ltb_ge in E.
  - destruct (String.eqb d "") eqn:Ed; [left; now apply String.eqb_eq|].
    right. simpl in H3. destruct (has_date d); [reflexivity | discriminate].
  - destruct (10 <? String.length g)%nat eqn:E; [discriminate|].
    now apply Nat.ltb_ge in E.
Qed.

Lemma join_parseTags_length (g : string) :
  (String.length (join " " (parseTags (Some g))) <= String.length g)%nat.
Proof.
  pose proof (weight_parseTags g) as Hw.
  destruct (parseTags (Some g)) as [|x l] eqn:E; [simpl; lia|].
  pose proof (join_length (x :: l) ltac:(discriminate)). lia.
Qed.

Lemma form_task_ok (task : Task) (t d g : string) :
  isValid (validateTask {| data_text := Some t; data_dueDate := Some d;
                           data_tags := Some g |}) = true ->
  text task = trim t -> dueDate task = d -> tags task = parseTags (Some g) ->
  task_ok task.
Proof.
  intros Hvalid Ht Hd Hg. apply valid_form in Hvalid as (Hne & Hlen & Hdate & Htags).
  unfold task_ok. rewrite Ht, Hd, Hg.
  repeat split; auto.
  - apply trim_idempotent.
  - apply parseTags_NoDup.
  - apply parseTags_tag_ok.
  - pose proof (join_parseTags_length g). lia.
Qed.

Lemma created_task_ok (w : World) (u : UI) :
  isValid (validateTask (getFormData u)) = true ->
  task_ok (createTask (taskInput u) (Some (dueDateInput u)) (Some (tagsInput u)) w).
Proof. intros Hvalid. now apply (form_task_ok _ _ _ _ Hvalid). Qed.


Lemma toggled_task_ok (w : World) (checked : bool) (task : Task) :
  task_ok task -> task_ok (toggle_task w checked task).
Proof. intros H. exact H. Qed.

End ValidatedForms.



Section SessionFacts.

Context `{DR : DateRuntime}.

Lemma storage_saveAndRender (w : World) (app : App) :
  storage (saveAndRender w app)
  = if storage_writable w then Some (tasks app) else storage app.
Proof.
  unfold saveAndRender, render, saveTasks, with_ui.
  destruct (storage_writable w); reflexivity.
Qed.


Lemma step_preserves_stored_in_sync (w : World) (intent : Intent) (app : App) :
  storage_writable w = true ->
  stored_in_sync app -> stored_in_sync (step w intent app).
Proof.
  unfold stored_in_sync. intros Hw Hsync.
  assert (Hsaved : forall a, loadTasks (storage (saveAndRender w a)) = tasks (saveAndRender w a)).
  { intros a. rewrite storage_saveAndRender, tasks_saveAndRender, Hw. reflexivity. }
  destruct intent; cbn [step]; try exact Hsync.
  - unfold handleTaskSubmit.
    destruct (isValid (validateTask (getFormData (ui app)))); cbn [negb]; [|exact Hsync].
    cbn [with_ui tasks storage]. apply Hsaved.
  - unfold handleEditSubmit.
    destruct (find (id_is (editModal_taskId (ui app))) (tasks app)); [|exact Hsync].
    destruct (isValid (validateTask (getEditFormData (ui app)))); cbn [negb]; [|exact Hsync].
    cbn [with_ui tasks storage]. apply Hsaved.
  - unfold handleTaskToggle.
    destruct (find (id_is (Some taskId)) (tasks app)); [|exact Hsync].
    cbn [with_ui tasks storage]. apply Hsaved.
  - unfold handleTaskEdit.
    destruct (find (id_is (Some taskId)) (tasks app)); exact Hsync.
  - unfold handleTaskDelete. destruct confirmed; [|exact Hsync].
    cbn [with_ui tasks storage]. apply Hsaved.
  - unfold handleClearCompleted.
    destruct (Z.of_nat (List.length (filter completed (tasks app))) =? 0); [exact Hsync|].
    destruct confirmed; [|exact Hsync].
    cbn [with_ui tasks storage]. apply Hsaved.
Qed.

End SessionFacts.

Section PageFacts.

Context `{DR : DateRuntime}.

Lemma view_of_rendered (w : World) (l : list Task) :
  map view_task (map (createTaskHTML w) l) = l.
Proof. rewrite map_map. simpl. apply map_id. Qed.

Lemma getFilteredTasks_frame (app app' : App) :
  tasks app' = tasks app -> currentFilter app' = currentFilter app ->
  currentSort app' = currentSort app ->
  getFilteredTasks app' = getFilteredTasks app.
Proof. unfold getFilteredTasks. now intros -> -> ->. Qed.

Lemma page_in_sync_frame (app app' : App) :
  tasks app' = tasks app -> currentFilter app' = currentFilter app ->
  currentSort app' = currentSort app ->
  tasksList (ui app') = tasksList (ui app) ->
  taskCount (ui app') = taskCount (ui app) ->
  tagFilter_options (ui app') = tagFilter_options (ui app) ->
  page_in_sync app -> page_in_sync app'.
Proof.
  unfold page_in_sync. intros Ht Hf Hs Hl Hc Ho (H1 & H2 & H3).
  rewrite (getFilteredTasks_frame app app' Ht Hf Hs), Hl, Hc, Ho, Ht. auto.
Qed.

Lemma render_page_in_sync (w : World) (app : App) : page_in_sync (render w app).
Proof.
  unfold page_in_sync. split; [|split].
  - unfold render. cbn [with_ui ui updateTagFilter updateTaskCount renderTasks tasksList].
    rewrite view_of_rendered. now apply getFilteredTasks_frame.
  - reflexivity.
  - reflexivity.
Qed.

Lemma saveAndRender_page_in_sync (w : World) (app : App) :
  page_in_sync (saveAndRender w app).
Proof. apply render_page_in_sync. Qed.

Lemma page_in_sync_ui (u : UI) (app : App) :
  tasksList u = tasksList (ui app) -> taskCount u = taskCount (ui app) ->
  tagFilter_options u = tagFilter_options (ui app) ->
  page_in_sync app -> page_in_sync (with_ui u app).
Proof. intros Hl Hc Ho. now apply page_in_sync_frame. Qed.

Lemma step_preserves_page_in_sync (w : World) (intent : Intent) (app : App) :
  page_in_sync app -> page_in_sync (step w intent app).
Proof.
  intros Hsync.
  assert (Hnote : forall m t a, page_in_sync a ->
                    page_in_sync (with_ui (showNotification m t (ui a)) a))
    by (intros; now apply page_in_sync_ui).
  destruct intent; cbn [step]; try (now apply page_in_sync_ui).
  - unfold handleTaskSubmit.
    destruct (isValid (validateTask (getFormData (ui app)))); cbn [negb];
      [|now apply Hnote].
    apply Hnote. apply page_in_sync_ui; try reflexivity.
    apply saveAndRender_page_in_sync.
  - unfold handleEditSubmit.
    destruct (find (id_is (editModal_taskId (ui app))) (tasks app));
      [|now apply page_in_sync_ui].
    destruct (isValid (validateTask (getEditFormData (ui app)))); cbn [negb];
      [|now apply Hnote].
    apply Hnote. apply page_in_sync_ui; try reflexivity.
    apply saveAndRender_page_in_sync.
  - unfold handleTaskToggle.
    destruct (find (id_is (Some taskId)) (tasks app)); [|exact Hsync].
    apply Hnote, saveAndRender_page_in_sync.
  - unfold handleTaskEdit.
    destruct (find (id_is (Some taskId)) (tasks app)); [|exact Hsync].
    now apply page_in_sync_ui.
  - unfold handleTaskDelete. destruct confirmed; [|exact Hsync].
    apply Hnote, saveAndRender_page_in_sync.
  - unfold handleClearCompleted.
    destruct (Z.of_nat (List.length (filter completed (tasks app))) =? 0);
      [now apply Hnote|].
    destruct confirmed; [|exact Hsync].
    apply Hnote, saveAndRender_page_in_sync.
  - apply render_page_in_sync.
  - apply render_page_in_sync.
Qed.

Lemma init_page_in_sync (w : World) (item : option (list Task)) (dark : bool) (page : UI) :
  page_in_sync (init w item dark page).
Proof.
  unfold init. apply page_in_sync_ui; try reflexivity. apply render_page_in_sync.
Qed.

End PageFacts.

Lemma run_invariant `{DR : DateRuntime} (Inv : App -> Prop) (Ok : World -> Prop)
      (session : list (World * Intent)) (app : App) :
  (forall w intent a, Ok w -> Inv a -> Inv (step w intent a)) ->
  Forall (fun wi => Ok (fst wi)) session ->
  Inv app -> Inv (run session app).
Proof.
  intros Hstep Hok. revert app.
  induction Hok as [|[w intent] session Hw _ IH]; intros app Hinv; simpl; [exact Hinv|].
  apply IH. now apply Hstep.
Qed.

Lemma Forall_trivial {A : Type} (l : list A) : Forall (fun _ => True) l.
Proof. induction l; constructor; auto. Qed.


(** X15. While storage accepts writes, what a reload would read is at every
    moment of a session the collection the controller holds: no handler
    changes the collection without saving it. *)
Theorem session_keeps_storage_in_sync :
  forall `{DR : DateRuntime} (session : list (World * Intent)) (w : World)
         (item : option (list Task)) (dark : bool) (page : UI),
    Forall (fun wi => storage_writable (fst wi) = true) session ->
    stored_in_sync (run session (init w item dark page)).
Proof.
  intros DR session w item dark page Hw.
  apply (run_invariant stored_in_sync (fun w => storage_writable w = true)).
  - intros w' intent a. apply step_preserves_stored_in_sync.
  - exact Hw.
  - reflexivity.
Qed.

Lemma getFilteredTasks_permutation `{DR : DateRuntime} (app : App) :
  Permutation (getFilteredTasks app)
              (filterTasksByTag (tasks app) (Some (currentFilter app))).
Proof.
  unfold getFilteredTasks.
  assert (Hf : (if truthy_string (currentFilter app)
                then filterTasksByTag (tasks app) (Some (currentFilter app))
                else tasks app)
               = filterTasksByTag (tasks app) (Some (currentFilter app))).
  { unfold filterTasksByTag. now destruct (truthy_string (currentFilter app)). }
  rewrite Hf. apply Permutation_sym, js_sort_perm.
Qed.

(** X16. At every moment of a session the page shows the current view: the
    list is the collection filtered by the current tag and sorted by the
    current criterion, each matching task appearing once; the counter shows
    the size of the whole collection and the tag menu the tags in use. *)
Theorem page_always_shows_current_view :
  forall `{DR : DateRuntime} (session : list (World * Intent)) (w : World)
         (item : option (list Task)) (dark : bool) (page : UI),
    let app := run session (init w item dark page) in
    page_in_sync app
    /\ Permutation (map view_task (tasksList (ui app)))
                   (filterTasksByTag (tasks app) (Some (currentFilter app))).
Proof.
  intros DR session w item dark page app.
  assert (Hsync : page_in_sync app).
  { apply (run_invariant page_in_sync (fun _ => True)).
    - intros w' intent a _. apply step_preserves_page_in_sync.
    - apply Forall_forall. intros; exact I.
    - apply init_page_in_sync. }
  split; [exact Hsync|].
  destruct Hsync as [-> _]. apply getFilteredTasks_permutation.
Qed.

(** ** The tag menu *)

Lemma compare_le_trans (x y z : string) :
  String.compare x y <> Gt -> String.compare y z <> Gt -> String.compare x z <> Gt.
Proof.
  revert y z. induction x as [|a x IH]; intros [|b y] [|c z]; simpl; try congruence.
  unfold Ascii.compare.
  destruct (N.compare_spec (N_of_ascii a) (N_of_ascii b));
    destruct (N.compare_spec (N_of_ascii b) (N_of_ascii c));
    destruct (N.compare_spec (N_of_ascii a) (N_of_ascii c));
    try congruence; try lia.
  apply IH.
Qed.

Lemma default_compare_after (x y : string) :
  comes_after default_compare x y = true <-> String.compare x y = Gt.
Proof.
  unfold comes_after, SortCompare, default_compare.
  destruct (String.compare x y); cbv; split; intros H;
    try reflexivity; discriminate H.
Qed.

Lemma default_compare_not_after (x y : string) :
  not_after default_compare x y <-> String.compare x y <> Gt.
Proof.
  unfold not_after. rewrite <- default_compare_after.
  destruct (comes_after default_compare x y); split; congruence.
Qed.

Lemma Set_values_In (l : list string) (x : string) : In x (Set_values l) <-> In x l.
Proof.
  induction l as [|y l IH]; simpl; [tauto|].
  rewrite filter_In, IH, negb_true_iff, String.eqb_neq.
  destruct (string_dec y x) as [-> | Hne]; [tauto|].
  split; [tauto|]. intros [H | H]; [congruence|]. right. split; [exact H | congruence].
Qed.

Lemma NoDup_filter {A : Type} (p : A -> bool) (l : list A) : NoDup l -> NoDup (filter p l).
Proof.
  induction 1 as [|x l Hx _ IH]; simpl; [constructor|].
  destruct (p x); [|exact IH]. constructor; [|exact IH].
  intros Hin. apply filter_In in Hin. tauto.
Qed.

Lemma Set_values_NoDup (l : list string) : NoDup (Set_values l).
Proof.
  induction l as [|y l IH]; simpl; constructor.
  - intros Hin. apply filter_In in Hin as [_ Hne].
    rewrite String.eqb_refl in Hne. discriminate.
  - now apply NoDup_filter.
Qed.

Lemma sorted_strict (l : list string) :
  NoDup l -> StronglySorted (not_after default_compare) l -> StronglySorted string_lt l.
Proof.
  intros Hnd Hs. induction Hs as [|x l Hs IH Hx]; [constructor|].
  inversion Hnd as [|? ? Hnotin Hnd']; subst.
  constructor; [now apply IH|].
  rewrite Forall_forall in *. intros y Hy.
  specialize (Hx y Hy). apply default_compare_not_after in Hx.
  unfold string_lt. destruct (String.compare x y) eqn:E; try congruence.
  apply String.compare_eq_iff in E. subst. contradiction.
Qed.

(** X1. The tags [getAllTags] offers for the filter are exactly the tags
    some task carries, each once, in strictly ascending order. *)
Theorem getAllTags_sorted_distinct :
  forall tasks : list Task,
    StronglySorted string_lt (getAllTags tasks)
    /\ NoDup (getAllTags tasks)
    /\ (forall tag, In tag (getAllTags tasks)
                    <-> exists t, In t tasks /\ In tag (tags t)).
Proof.
  intros tasks. unfold getAllTags.
  set (values := Set_values (flat_map tags tasks)).
  assert (Hperm : Permutation values (js_sort default_compare values))
    by apply js_sort_perm.
  assert (Hnd : NoDup (js_sort default_compare values)).
  { eapply Permutation_NoDup; [exact Hperm | apply Set_values_NoDup]. }
  split; [|split; [exact Hnd|]].
  - apply sorted_strict; [exact Hnd|].
    apply (js_sort_sorted default_compare (fun _ => True)).
    + intros x y _ _ Hxy. apply default_compare_not_after.
      apply default_compare_after in Hxy.
      rewrite String.compare_antisym, Hxy. discriminate.
    + intros x y z _ _ _ Hxy Hyz. apply default_compare_not_after.
      apply default_compare_not_after in Hxy, Hyz. now apply (compare_le_trans x y z).
    + apply Forall_forall. intros; exact I.
  - intros tag. split.
    + intros Hin. apply (Permutation_in _ (Permutation_sym Hperm)) in Hin.
      apply Set_values_In, in_flat_map in Hin. exact Hin.
    + intros Hex. apply (Permutation_in _ Hperm). apply Set_values_In, in_flat_map. exact Hex.
Qed.

(** ** Priority and status together *)

Lemma ceil_div_monotone (a b m : Z) : 0 < m -> a <= b -> ceil_div a m <= ceil_div b m.
Proof.
  intros Hm Hab. unfold ceil_div.
  assert (- b / m <= - a / m) by (apply Z.div_le_mono; lia). lia.
Qed.

(** X2. The status shown for a due date and the priority computed from it
    at the same instant agree: the class is "overdue" exactly when the
    priority is overdue, "due-soon" exactly when it is high or medium, and
    empty exactly when it is low; this includes a due date that is absent
    or cannot be read. *)
Theorem status_agrees_with_priority :
  forall `{DR : DateRuntime} (dueDate : option string) (w : World),
    (status_class (getDueDateStatus dueDate w) = "overdue"
     <-> calculatePriority dueDate w = Overdue)
    /\ (status_class (getDueDateStatus dueDate w) = "due-soon"
        <-> calculatePriority dueDate w = High \/ calculatePriority dueDate w = Medium)
    /\ (status_class (getDueDateStatus dueDate w) = ""
        <-> calculatePriority dueDate w = Low).
Proof.
  intros DR dueDate w. unfold getDueDateStatus, calculatePriority.
  destruct dueDate as [d|]; [|cbn; intuition discriminate].
  destruct (negb (truthy_string d)); [cbn; intuition discriminate|].
  destruct (diffDays d w) as [v|]; unfold num_ltb, num_leb, num_eqb;
    [|cbn; intuition discriminate].
  destruct (v <? 0) eqn:E0; [cbn; intuition discriminate|].
  destruct (v =? 0) eqn:Ez; destruct (v =? 1) eqn:Eo;
    destruct (v <=? 1) eqn:E1; destruct (v <=? 3) eqn:E3;
    try lia; cbn; intuition discriminate.
Qed.

(** X3. As the clock advances the priority of a due date never becomes less
    urgent: its rank can only move from low towards overdue. *)
Theorem priority_escalates_with_time :
  forall `{DR : DateRuntime} (dueDate : option string) (w1 w2 : World),
    clock w1 <= clock w2 ->
    priorityOrder (calculatePriority dueDate w2)
    <= priorityOrder (calculatePriority dueDate w1).
Proof.
  intros DR dueDate w1 w2 Hclock. unfold calculatePriority, diffDays.
  destruct dueDate as [d|]; [|reflexivity].
  destruct (negb (truthy_string d)); [reflexivity|].
  destruct (Date_parse d) as [due|]; [|reflexivity].
  pose proof (ceil_div_monotone (due - clock w2) (due - clock w1) MS_PER_DAY
                eq_refl ltac:(lia)) as Hmono.
  unfold num_ltb, num_leb.
  set (d1 := ceil_div (due - clock w1) MS_PER_DAY) in *.
  set (d2 := ceil_div (due - clock w2) MS_PER_DAY) in *.
  destruct (d1 <? 0) eqn:A0; destruct (d1 <=? 1) eqn:A1; destruct (d1 <=? 3) eqn:A3;
    destruct (d2 <? 0) eqn:B0; destruct (d2 <=? 1) eqn:B1; destruct (d2 <=? 3) eqn:B3;
    simpl; lia.
Qed.

(** ** The other two orders *)

(** X4. Sorted by ["priority"] the ranks are ascending, for every list;
    sorted by ["created"], or by any criterion other than the two named
    ones, the creation stamps are descending, newest first, when every
    stamp can be read. *)
Theorem sortTasks_priority_created_order :
  forall `{DR : DateRuntime} (l : list Task),
    StronglySorted
      (fun a b => priorityOrder (priority a) <= priorityOrder (priority b))
      (sortTasks l "priority")
    /\ (forall sortBy : string,
          sortBy <> "dueDate" -> sortBy <> "priority" ->
          forallb (comparable sortBy) l = true ->
          StronglySorted
            (fun a b => forall x y,
                 Date_parse (createdAt a) = Some x -> Date_parse (createdAt b) = Some y ->
                 y <= x)
            (sortTasks l sortBy)).
Proof.
  intros DR l. split.
  - apply (sorted_weaken (not_after (sort_comparator "priority")) _ (fun _ => True)).
    + intros a b _ _ Hab.
      unfold not_after, comes_after, SortCompare, sort_comparator, compare_priority in Hab.
      simpl in Hab. apply Z.ltb_ge in Hab. lia.
    + apply Forall_forall. intros; exact I.
    + apply sortTasks_sorted. apply forallb_forall. reflexivity.
  - intros sortBy Hd Hp Hl.
    apply String.eqb_neq in Hd, Hp.
    apply (sorted_weaken (not_after (sort_comparator sortBy)) _ (fun _ => True)).
    + intros a b _ _ Hab x y Hx Hy.
      unfold not_after, comes_after, SortCompare, sort_comparator in Hab.
      rewrite Hd, Hp in Hab. unfold compare_created, date_minus in Hab.
      rewrite Hx, Hy in Hab. apply Z.ltb_ge in Hab. lia.
    + apply Forall_forall. intros; exact I.
    + now apply sortTasks_sorted.
Qed.

(** ** The tag limit *)

(** X6. Because validation measures the tags input in characters, an input
    that passes it never yields more than five tags: the limit of ten tags
    its message speaks of cannot be reached. *)
Theorem accepted_tags_are_few :
  forall `{DR : DateRuntime} (taskData : TaskData),
    isValid (validateTask taskData) = true ->
    (List.length (parseTags (data_tags taskData)) <= 5)%nat.
Proof.
  intros DR taskData Hvalid.
  destruct (validateTask_errors taskData) as [Herr Hiff].
  apply Hiff in Hvalid. rewrite Hvalid in Herr. symmetry in Herr.
  apply app_eq_nil in Herr as [_ Herr].
  apply app_eq_nil in Herr as [_ Herr].
  apply app_eq_nil in Herr as [_ Htags].
  destruct (data_tags taskData) as [g|]; [|simpl; lia].
  destruct (10 <? String.length g)%nat eqn:E; [discriminate|].
  apply Nat.ltb_ge in E.
  pose proof (weight_parseTags g) as Hw.
  pose proof (weight_count (parseTags (Some g))) as Hc.
  assert (Hne : Forall (fun x => x <> "") (parseTags (Some g))).
  { eapply Forall_impl; [|apply parseTags_tag_ok].
    intros tag H. now apply tag_ok_token in H as [_ H]. }
  specialize (Hc Hne). lia.
Qed.

(** ** Escaping *)



Lemma contains_char_append (c : ascii) (a b : string) :
  contains_char c (a ++ b) = contains_char c a || contains_char c b.
Proof. induction a as [|d a IH]; simpl; [reflexivity|]. now rewrite IH, orb_assoc. Qed.

Lemma unescape_escape (s : string) : unescapeHtml (escapeHtml s) = s.
Proof.
  induction s as [|c s IH]; [reflexivity|].
  destruct c as [[] [] [] [] [] [] [] []]; simpl; now rewrite IH.
Qed.

Lemma escapeHtml_markup (s : string) :
  contains_char "<" (escapeHtml s) = false /\ contains_char ">" (escapeHtml s) = false
  /\ contains_char double_quote (escapeHtml s) = contains_char double_quote s.
Proof.
  induction s as [|c s (IH1 & IH2 & IH3)]; [repeat split|].
  cbn [escapeHtml]. rewrite !contains_char_append, IH1, IH2, IH3.
  destruct c as [[] [] [] [] [] [] [] []]; repeat split.
Qed.

Lemma escapeHtml_plain (s : string) :
  contains_char "&" s = false -> contains_char "<" s = false ->
  contains_char ">" s = false -> escapeHtml s = s.
Proof.
  induction s as [|c s IH]; [reflexivity|]. simpl.
  intros Ha Hl Hg.
  apply orb_false_iff in Ha as [Ha Ha'], Hl as [Hl Hl'], Hg as [Hg Hg'].
  rewrite Ha, Hl, Hg. simpl. now rewrite IH.
Qed.

(** X7. [escapeHtml] leaves no [<] and no [>] in its result, changes nothing
    in a text free of [&], [<] and [>], and maps different texts to
    different results; it does not touch the double quote. *)
Theorem escapeHtml_neutralises_markup :
  forall text : string,
    contains_char "<" (escapeHtml text) = false
    /\ contains_char ">" (escapeHtml text) = false
    /\ contains_char double_quote (escapeHtml text) = contains_char double_quote text
    /\ (contains_char "&" text = false -> contains_char "<" text = false ->
        contains_char ">" text = false -> escapeHtml text = text)
    /\ (forall other, escapeHtml other = escapeHtml text -> other = text).
Proof.
  intros text. destruct (escapeHtml_markup text) as (H1 & H2 & H3).
  repeat split; auto.
  - apply escapeHtml_plain.
  - intros other Heq. rewrite <- (unescape_escape other), Heq. apply unescape_escape.
Qed.

(** ** The handlers one by one *)

Section HandlerFacts.

Context `{DR : DateRuntime}.

Lemma find_id_is (taskId : string) (l : list Task) (task : Task) :
  find (id_is (Some taskId)) l = Some task -> id task = taskId.
Proof.
  intros Hfind. apply find_some in Hfind as [_ Hid]. now apply String.eqb_eq in Hid.
Qed.

Lemma find_none_id (taskId : string) (l : list Task) :
  find (id_is (Some taskId)) l = None <-> ~ In taskId (map id l).
Proof.
  split.
  - intros Hnone Hin. apply in_map_iff in Hin as [t [Hid Ht]].
    pose proof (find_none _ _ Hnone t Ht) as H. simpl in H.
    rewrite Hid, String.eqb_refl in H. discriminate.
  - intros Hnot. destruct (find (id_is (Some taskId)) l) as [t|] eqn:E; [|reflexivity].
    exfalso. apply Hnot. apply find_some in E as [Ht Hid].
    apply String.eqb_eq in Hid. rewrite <- Hid. now apply in_map.
Qed.

Lemma map_id_update_first (p : Task -> bool) (f : Task -> Task) (l : list Task) :
  (forall t, id (f t) = id t) -> map id (update_first p f l) = map id l.
Proof.
  intros Hf. induction l as [|t l IH]; simpl; [reflexivity|].
  destruct (p t); simpl; [now rewrite Hf | now rewrite IH].
Qed.

Lemma NoDup_map_filter {A B : Type} (g : A -> B) (p : A -> bool) (l : list A) :
  NoDup (map g l) -> NoDup (map g (filter p l)).
Proof.
  induction l as [|x l IH]; simpl; [auto|].
  intros Hnd. inversion Hnd as [|? ? Hx Hnd']; subst.
  destruct (p x); simpl; [|auto].
  constructor; [|auto].
  intros Hin. apply Hx. apply in_map_iff in Hin as [y [Hy Hin]].
  apply filter_In in Hin as [Hin _]. rewrite <- Hy. now apply in_map.
Qed.

Lemma filter_id_absent (taskId : string) (l : list Task) :
  ~ In taskId (map id l) -> filter (fun t => negb (id t =? taskId)%string) l = l.
Proof.
  intros Hnot. apply filter_all. apply Forall_forall. intros t Ht.
  apply negb_true_iff, String.eqb_neq. intros Hid. apply Hnot.
  rewrite <- Hid. now apply in_map.
Qed.

End HandlerFacts.

(** X13. No intent makes two tasks share an [id], as long as the identifier
    generated for a submitted task is not already in use. *)
Theorem step_keeps_ids_distinct :
  forall `{DR : DateRuntime} (w : World) (intent : Intent) (app : App),
    NoDup (map id (tasks app)) ->
    (intent = SubmitTask -> ~ In (generateId w) (map id (tasks app))) ->
    NoDup (map id (tasks (step w intent app))).
Proof.
  intros DR w intent app Hnd Hfresh.
  destruct intent; cbn [step]; try exact Hnd.
  - unfold handleTaskSubmit.
    destruct (isValid (validateTask (getFormData (ui app)))); cbn [negb]; [|exact Hnd].
    cbn [with_ui tasks]. rewrite tasks_saveAndRender. cbn [with_tasks tasks].
    simpl. constructor; [now apply Hfresh | exact Hnd].
  - unfold handleEditSubmit.
    destruct (find (id_is (editModal_taskId (ui app))) (tasks app)); [|exact Hnd].
    destruct (isValid (validateTask (getEditFormData (ui app)))); cbn [negb]; [|exact Hnd].
    cbn [with_ui tasks]. rewrite tasks_saveAndRender. cbn [with_tasks tasks].
    now rewrite map_id_update_first.
  - unfold handleTaskToggle.
    destruct (find (id_is (Some taskId)) (tasks app)); [|exact Hnd].
    cbn [with_ui tasks]. rewrite tasks_saveAndRender. cbn [with_tasks tasks].
    now rewrite map_id_update_first.
  - unfold handleTaskEdit.
    destruct (find (id_is (Some taskId)) (tasks app)); exact Hnd.
  - unfold handleTaskDelete. destruct confirmed; [|exact Hnd].
    cbn [with_ui tasks]. rewrite tasks_saveAndRender. cbn [with_tasks tasks].
    now apply NoDup_map_filter.
  - unfold handleClearCompleted.
    destruct (Z.of_nat (List.length (filter completed (tasks app))) =? 0); [exact Hnd|].
    destruct confirmed; [|exact Hnd].
    cbn [with_ui tasks]. rewrite tasks_saveAndRender. cbn [with_tasks tasks].
    now apply NoDup_map_filter.
Qed.

(** X9. Toggling an [id] that no task has changes nothing at all.  Otherwise
    the first task with that [id] gets the new completion flag and a
    priority recomputed from its due date, every other field and every other
    task staying as it was, and the collection is saved. *)
Theorem handleTaskToggle_effect :
  forall `{DR : DateRuntime} (w : World) (taskId : string) (checked : bool) (app : App),
    (~ In taskId (map id (tasks app)) -> handleTaskToggle w taskId checked app = app)
    /\ (forall task : Task,
          find (id_is (Some taskId)) (tasks app) = Some task ->
          let app' := handleTaskToggle w taskId checked app in
          exists (before after : list Task) (task' : Task),
            tasks app = before ++ task :: after
            /\ tasks app' = before ++ task' :: after
            /\ ~ In taskId (map id before)
            /\ completed task' = checked
            /\ priority task' = calculatePriority (Some (dueDate task)) w
            /\ id task' = id task /\ text task' = text task
            /\ dueDate task' = dueDate task /\ tags task' = tags task
            /\ createdAt task' = createdAt task
            /\ storage app' = (if storage_writable w then Some (tasks app') else storage app)
            /\ notification (ui app')
               = Some (if checked then "Task completed!" else "Task marked as pending",
                       type_success)).
Proof.
  intros DR w taskId checked app. split.
  - intros Hnot. apply find_none_id in Hnot. unfold handleTaskToggle. now rewrite Hnot.
  - intros task Hfind app'.
    destruct (find_update_first _ (toggle_task w checked) _ _ Hfind)
      as (before & after & Hl & Hu & Hb & _).
    exists before, after, (toggle_task w checked task).
    assert (Htasks : tasks app' = before ++ toggle_task w checked task :: after).
    { subst app'. unfold handleTaskToggle. rewrite Hfind.
      cbn [with_ui tasks]. rewrite tasks_saveAndRender. exact Hu. }
    split; [exact Hl|]. split; [exact Htasks|].
    split.
    { intros Hin. apply in_map_iff in Hin as [t [Hid Ht]].
      rewrite Forall_forall in Hb. specialize (Hb t Ht). simpl in Hb.
      rewrite Hid, String.eqb_refl in Hb. discriminate. }
    repeat split.
    + rewrite Htasks. subst app'. unfold handleTaskToggle. rewrite Hfind.
      cbn [with_ui storage]. rewrite storage_saveAndRender. cbn [with_tasks tasks storage].
      now rewrite Hu.
    + subst app'. unfold handleTaskToggle. rewrite Hfind. reflexivity.
Qed.

(** X10. A declined deletion changes nothing.  A confirmed one removes every
    task with the given [id] and keeps the others in their order; when no
    task has that [id] the collection is unchanged, yet it is saved again
    and the deletion is reported as a success. *)
Theorem handleTaskDelete_effect :
  forall `{DR : DateRuntime} (w : World) (taskId : string) (app : App),
    handleTaskDelete w taskId false app = app
    /\ let app' := handleTaskDelete w taskId true app in
       tasks app' = filter (fun t => negb (id t =? taskId)%string) (tasks app)
       /\ (forall t, In t (tasks app') <-> In t (tasks app) /\ id t <> taskId)
       /\ ~ In taskId (map id (tasks app'))
       /\ (~ In taskId (map id (tasks app)) -> tasks app' = tasks app)
       /\ storage app' = (if storage_writable w then Some (tasks app') else storage app)
       /\ notification (ui app') = Some ("Task deleted successfully!", type_success).
Proof.
  intros DR w taskId app. split; [reflexivity|]. intros app'.
  assert (Htasks : tasks app' = filter (fun t => negb (id t =? taskId)%string) (tasks app)).
  { subst app'. unfold handleTaskDelete. cbn [with_ui tasks].
    now rewrite tasks_saveAndRender. }
  split; [exact Htasks|].
  split.
  { intros t. rewrite Htasks, filter_In, negb_true_iff, String.eqb_neq. tauto. }
  split.
  { rewrite Htasks. intros Hin. apply in_map_iff in Hin as [t [Hid Ht]].
    apply filter_In in Ht as [_ Hne]. rewrite Hid, String.eqb_refl in Hne. discriminate. }
  split.
  { intros Hnot. rewrite Htasks. now apply filter_id_absent. }
  split.
  { rewrite Htasks. subst app'. unfold handleTaskDelete. cbn [with_ui storage].
    now rewrite storage_saveAndRender. }
  reflexivity.
Qed.

(** X11. With no completed task, clearing only shows a warning.  With some,
    a declined confirmation changes nothing, and a confirmed one keeps
    exactly the pending tasks in their order, saves them and reports how
    many tasks went, with "task" in the singular for one. *)
Theorem handleClearCompleted_effect :
  forall `{DR : DateRuntime} (w : World) (confirmed : bool) (app : App),
    let done := count_if completed (tasks app) in
    (done = 0 ->
     handleClearCompleted w confirmed app
     = with_ui (showNotification "No completed tasks to clear" type_warning (ui app)) app)
    /\ (done <> 0 -> handleClearCompleted w false app = app)
    /\ (done <> 0 ->
        let app' := handleClearCompleted w true app in
        tasks app' = filter (fun t => negb (completed t)) (tasks app)
        /\ Forall (fun t => completed t = false) (tasks app')
        /\ (forall t, In t (tasks app') <-> In t (tasks app) /\ completed t = false)
        /\ Z.of_nat (List.length (tasks app')) = Z.of_nat (List.length (tasks app)) - done
        /\ storage app' = (if storage_writable w then Some (tasks app') else storage app)
        /\ notification (ui app')
           = Some ((ofNumber (Some done) ++ " completed task"
                      ++ (if (done =? 1)%Z then "" else "s") ++ " cleared!")%string,
                   type_success)).
Proof.
  intros DR w confirmed app done. subst done.
  unfold handleClearCompleted. rewrite count_if_length.
  split; [|split].
  - intros Hz. now rewrite Hz.
  - intros Hnz. apply Z.eqb_neq in Hnz. now rewrite Hnz.
  - intros Hnz. pose proof Hnz as Hnz'. apply Z.eqb_neq in Hnz'. rewrite Hnz'.
    cbn zeta. cbn [with_ui tasks ui storage]. rewrite tasks_saveAndRender, storage_saveAndRender.
    cbn [with_tasks tasks storage].
    split; [reflexivity|].
    split.
    { apply Forall_forall. intros t Ht. apply filter_In in Ht as [_ Ht].
      now apply negb_true_iff in Ht. }
    split.
    { intros t. rewrite filter_In, negb_true_iff. tauto. }
    split.
    { pose proof (count_if_complement completed (tasks app)) as Hsum.
      rewrite count_if_length. lia. }
    split; [reflexivity|].
    destruct (count_if completed (tasks app) =? 1); reflexivity.
Qed.

(** X8. A submit that passes validation puts the new task at the head of
    the collection, in front of the tasks that were there; the task is well
    formed and pending; the collection is written to storage when storage
    accepts it; the input form is emptied and success is reported. *)
Theorem handleTaskSubmit_adds_task :
  forall `{DR : DateRuntime} (w : World) (app : App),
    isValid (validateTask (getFormData (ui app))) = true ->
    let app' := handleTaskSubmit w app in
    let task := createTask (taskInput (ui app)) (Some (dueDateInput (ui app)))
                           (Some (tagsInput (ui app))) w in
    tasks app' = task :: tasks app
    /\ task_ok task
    /\ completed task = false
    /\ priority task = calculatePriority (Some (dueDate task)) w
    /\ storage app' = (if storage_writable w then Some (tasks app') else storage app)
    /\ getFormData (ui app')
       = {| data_text := Some ""; data_dueDate := Some ""; data_tags := Some "" |}
    /\ notification (ui app') = Some ("Task added successfully!", type_success).
Proof.
  intros DR w app Hvalid app' task.
  assert (Htasks : tasks app' = task :: tasks app).
  { subst app'. unfold handleTaskSubmit. rewrite Hvalid. cbn [negb with_ui tasks].
    now rewrite tasks_saveAndRender. }
  split; [exact Htasks|].
  split; [now apply created_task_ok|].
  split; [reflexivity|]. split; [reflexivity|].
  split.
  { rewrite Htasks. subst app'. unfold handleTaskSubmit. rewrite Hvalid.
    cbn [negb with_ui storage]. now rewrite storage_saveAndRender. }
  subst app'. unfold handleTaskSubmit. rewrite Hvalid. split; reflexivity.
Qed.

(** ** Opening the edit dialog and submitting it as it is *)

Section EditRoundTrip.

Context `{DR : DateRuntime}.

Lemma or_empty (d : string) : (if truthy_string d then d else "") = d.
Proof.
  unfold truthy_string. destruct (String.eqb d "") eqn:E; simpl; [|reflexivity].
  apply String.eqb_eq in E. now subst.
Qed.

Lemma task_ok_valid (t d g : string) :
  t <> "" -> trim t = t -> (String.length t <= 500)%nat ->
  (d = "" \/ has_date d = true) -> (String.length g <= 10)%nat ->
  isValid (validateTask {| data_text := Some t; data_dueDate := Some d;
                           data_tags := Some g |}) = true.
Proof.
  intros Hne Htrim Hlen Hdate Htags.
  destruct (validateTask_errors {| data_text := Some t; data_dueDate := Some d;
                                   data_tags := Some g |}) as [Herr Hiff].
  apply Hiff. rewrite Herr. cbn [data_text data_dueDate data_tags truthy].
  rewrite Htrim. unfold truthy_string.
  apply String.eqb_neq in Hne. rewrite Hne. cbn [negb orb].
  assert (H0 : (String.length t =? 0)%nat = false).
  { apply Nat.eqb_neq. intros H. apply length_zero_empty in H.
    apply String.eqb_neq in Hne. contradiction. }
  assert (H500 : (500 <? String.length t)%nat = false) by now apply Nat.ltb_ge.
  assert (H10 : (10 <? String.length g)%nat = false) by now apply Nat.ltb_ge.
  rewrite H0, H500, H10.
  destruct Hdate as [-> | Hd]; [reflexivity|].
  rewrite Hd. now rewrite andb_false_r.
Qed.

End EditRoundTrip.

(** X12. Opening the edit dialog on a well-formed task and submitting it
    untouched gives the task back with its text, due date and tags as they
    were: the dialog shows the tags joined by spaces, and parsing that text
    returns the same tags.  Only the priority is recomputed. *)
Theorem edit_without_changes_keeps_task :
  forall `{DR : DateRuntime} (w : World) (app : App) (taskId : string) (task : Task),
    find (id_is (Some taskId)) (tasks app) = Some task ->
    task_ok task ->
    let opened := handleTaskEdit taskId app in
    let app' := handleEditSubmit w opened in
    editModal_taskId (ui opened) = Some taskId
    /\ getEditFormData (ui opened)
       = {| data_text := Some (text task); data_dueDate := Some (dueDate task);
            data_tags := Some (join " " (tags task)) |}
    /\ exists (before after : list Task) (task' : Task),
         tasks app = before ++ task :: after
         /\ tasks app' = before ++ task' :: after
         /\ text task' = text task
         /\ dueDate task' = dueDate task
         /\ tags task' = tags task
         /\ id task' = id task
         /\ createdAt task' = createdAt task
         /\ completed task' = completed task
         /\ priority task' = calculatePriority (Some (dueDate task)) w.
Proof.
  intros DR w app taskId task Hfind Hok opened app'.
  destruct Hok as (Hne & Htrim & Hlen & Hdate & Hnd & Htags & Hjoin).
  pose proof (find_id_is _ _ _ Hfind) as Hid.
  assert (Hopened : opened = with_ui (showEditModal task (ui app)) app).
  { subst opened. unfold handleTaskEdit. now rewrite Hfind. }
  assert (Hform : getEditFormData (ui opened)
                  = {| data_text := Some (text task); data_dueDate := Some (dueDate task);
                       data_tags := Some (join " " (tags task)) |}).
  { rewrite Hopened. unfold getEditFormData. cbn. now rewrite or_empty. }
  split; [rewrite Hopened; cbn; now rewrite Hid|].
  split; [exact Hform|].
  assert (Hfind' : find (id_is (editModal_taskId (ui opened))) (tasks opened) = Some task).
  { rewrite Hopened. cbn. now rewrite Hid. }
  assert (Hvalid : isValid (validateTask (getEditFormData (ui opened))) = true).
  { rewrite Hform. now apply task_ok_valid. }
  destruct (find_update_first _ (edit_task w (ui opened)) _ _ Hfind')
    as (before & after & Hl & Hu & _ & _).
  exists before, after, (edit_task w (ui opened) task).
  split; [rewrite Hopened in Hl; exact Hl|].
  split.
  { subst app'. unfold handleEditSubmit. rewrite Hfind', Hvalid. cbn [negb].
    cbn [with_ui tasks]. rewrite tasks_saveAndRender. exact Hu. }
  injection Hform as Htext Hdue Htag.
  cbn [edit_task text dueDate tags id createdAt completed priority].
  rewrite Htext, Hdue, Htag, Htrim, parseTags_join by assumption.
  repeat split.
Qed.

(** ** Filtering and sorting in either order *)

Lemma filter_filter_comm {A : Type} (p q : A -> bool) (l : list A) :
  filter p (filter q l) = filter q (filter p l).
Proof.
  induction l as [|x l IH]; simpl; [reflexivity|].
  destruct (p x) eqn:Hp, (q x) eqn:Hq; simpl; rewrite ?Hp, ?Hq, IH; reflexivity.
Qed.

Lemma forallb_filter {A : Type} (p q : A -> bool) (l : list A) :
  forallb p l = true -> forallb p (filter q l) = true.
Proof.
  rewrite !forallb_forall. intros H x Hx. apply filter_In in Hx. now apply H.
Qed.

(** X5. The view is the same whether the tasks are filtered and then sorted,
    as [getFilteredTasks] does, or sorted and then filtered. *)
Theorem filter_and_sort_commute :
  forall `{DR : DateRuntime} (l : list Task) (tagFilter : option string) (sortBy : string),
    forallb (comparable sortBy) l = true ->
    sortTasks (filterTasksByTag l tagFilter) sortBy
    = filterTasksByTag (sortTasks l sortBy) tagFilter.
Proof.
  intros DR l tagFilter sortBy Hl. unfold filterTasksByTag.
  destruct tagFilter as [f|]; [|reflexivity].
  destruct (negb (truthy_string f)); [reflexivity|].
  symmetry. apply sortTasks_canonical.
  - now apply forallb_filter.
  - apply filter_permutation, js_sort_perm.
  - apply filter_sorted. now apply sortTasks_sorted.
  - intros x Hx. apply filter_In in Hx as [Hx _].
    rewrite filter_filter_comm. rewrite (filter_filter_comm _ (tag_matches f) l). f_equal.
    unfold sortTasks.
    apply (js_sort_keeps_ties (sort_comparator sortBy) (fun t => comparable sortBy t = true)).
    + intros a b c. apply comparator_trans.
    + now apply (proj1 (forallb_forall _ _) Hl).
    + apply Forall_forall. now apply forallb_forall.
Qed.

(** ** Looking is not touching, and a failed write is not an error *)


(** X17. Typing, opening or closing the dialog and choosing a filter or a
    sort order never change the collection or the stored item.  When storage
    refuses writes no intent changes the stored item, although the
    collection in memory still changes.  After any intent the stored item is
    either what it was or the collection just left. *)
Theorem viewing_and_failed_writes :
  forall `{DR : DateRuntime} (w : World) (intent : Intent) (app : App),
    (is_view_intent intent = true ->
     tasks (step w intent app) = tasks app /\ storage (step w intent app) = storage app)
    /\ (storage_writable w = false -> storage (step w intent app) = storage app)
    /\ (storage (step w intent app) = storage app
        \/ storage (step w intent app) = Some (tasks (step w intent app))).
Proof.
  intros DR w intent app.
  assert (Hsave : forall a,
            storage (saveAndRender w a)
            = if storage_writable w then Some (tasks (saveAndRender w a)) else storage a).
  { intros a. now rewrite storage_saveAndRender, tasks_saveAndRender. }
  split; [|split].
  - destruct intent; try discriminate; intros _; cbn [step]; try (split; reflexivity).
    unfold handleTaskEdit.
    destruct (find (id_is (Some taskId)) (tasks app)); split; reflexivity.
  - intros Hw. destruct intent; cbn [step]; try reflexivity.
    + unfold handleTaskSubmit.
      destruct (isValid (validateTask (getFormData (ui app)))); cbn [negb]; [|reflexivity].
      cbn [with_ui storage]. now rewrite Hsave, Hw.
    + unfold handleEditSubmit.
      destruct (find (id_is (editModal_taskId (ui app))) (tasks app)); [|reflexivity].
      destruct (isValid (validateTask (getEditFormData (ui app)))); cbn [negb]; [|reflexivity].
      cbn [with_ui storage]. now rewrite Hsave, Hw.
    + unfold handleTaskToggle.
      destruct (find (id_is (Some taskId)) (tasks app)); [|reflexivity].
      cbn [with_ui storage]. now rewrite Hsave, Hw.
    + unfold handleTaskEdit.
      destruct (find (id_is (Some taskId)) (tasks app)); reflexivity.
    + unfold handleTaskDelete. destruct confirmed; [|reflexivity].
      cbn [with_ui storage]. now rewrite Hsave, Hw.
    + unfold handleClearCompleted.
      destruct (Z.of_nat (List.length (filter completed (tasks app))) =? 0); [reflexivity|].
      destruct confirmed; [|reflexivity].
      cbn [with_ui storage]. now rewrite Hsave, Hw.
  - destruct intent; cbn [step]; try (left; reflexivity).
    + unfold handleTaskSubmit.
      destruct (isValid (validateTask (getFormData (ui app)))); cbn [negb];
        [|left; reflexivity].
      cbn [with_ui storage tasks]. rewrite Hsave.
      destruct (storage_writable w); [right | left]; reflexivity.
    + unfold handleEditSubmit.
      destruct (find (id_is (editModal_taskId (ui app))) (tasks app)); [|left; reflexivity].
      destruct (isValid (validateTask (getEditFormData (ui app)))); cbn [negb];
        [|left; reflexivity].
      cbn [with_ui storage tasks]. rewrite Hsave.
      destruct (storage_writable w); [right | left]; reflexivity.
    + unfold handleTaskToggle.
      destruct (find (id_is (Some taskId)) (tasks app)); [|left; reflexivity].
      cbn [with_ui storage tasks]. rewrite Hsave.
      destruct (storage_writable w); [right | left]; reflexivity.
    + unfold handleTaskEdit.
      destruct (find (id_is (Some taskId)) (tasks app)); left; reflexivity.
    + unfold handleTaskDelete. destruct confirmed; [|left; reflexivity].
      cbn [with_ui storage tasks]. rewrite Hsave.
      destruct (storage_writable w); [right | left]; reflexivity.
    + unfold handleClearCompleted.
      destruct (Z.of_nat (List.length (filter completed (tasks app))) =? 0);
        [left; reflexivity|].
      destruct confirmed; [|left; reflexivity].
      cbn [with_ui storage tasks]. rewrite Hsave.
      destruct (storage_writable w); [right | left]; reflexivity.
Qed.


Example shopping_session :
  let app := run Sessions.shopping (init Samples.now None false Samples.page) in
  map text (tasks app) = ["Call Sam"]
  /\ map tags (tasks app) = [["#phone"; "#p"]]
  /\ storage app = Some (tasks app)
  /\ tasksList (ui app) = []
  /\ taskCount (ui app) = "(1)"
  /\ tagFilter_options (ui app) = ["#p"; "#phone"]
  /\ notification (ui app) = Some ("1 completed task cleared!", type_success).
Proof. vm_compute. repeat split. Qed.

Lemma priority_escalates_with_time_witness :
  clock Samples.now <= clock Sessions.later
  /\ priorityOrder (calculatePriority (Some "2024-01-10") Sessions.later)
     <= priorityOrder (calculatePriority (Some "2024-01-10") Samples.now).
Proof.
  assert (H : clock Samples.now <= clock Sessions.later) by (vm_compute; discriminate).
  split; [exact H|].
  exact (priority_escalates_with_time (DR := utc_date) (Some "2024-01-10") _ _ H).
Defined.

Lemma sortTasks_priority_created_order_witness :
  "created" <> "dueDate" /\ "created" <> "priority"
  /\ forallb (comparable "created") Samples.collection = true
  /\ StronglySorted
       (fun a b => forall x y,
            Date_parse (createdAt a) = Some x -> Date_parse (createdAt b) = Some y -> y <= x)
       (sortTasks Samples.collection "created").
Proof.
  assert (H1 : "created" <> "dueDate") by discriminate.
  assert (H2 : "created" <> "priority") by discriminate.
  split; [exact H1|]. split; [exact H2|]. split; [reflexivity|].
  exact (proj2 (sortTasks_priority_created_order (DR := utc_date) Samples.collection)
           "created" H1 H2 eq_refl).
Defined.

Lemma accepted_tags_are_few_witness :
  let taskData := {| data_text := Some "Buy milk"; data_dueDate := Some "";
                     data_tags := Some "#a #b #c #" |} in
  isValid (validateTask taskData) = true
  /\ (List.length (parseTags (data_tags taskData)) <= 5)%nat.
Proof.
  intros taskData. split; [reflexivity|].
  exact (accepted_tags_are_few (DR := utc_date) taskData eq_refl).
Defined.

Lemma escapeHtml_neutralises_markup_witness :
  contains_char "&" "#home" = false /\ contains_char "<" "#home" = false
  /\ contains_char ">" "#home" = false /\ escapeHtml "#home" = "#home"
  /\ escapeHtml "a<b" = "a&lt;b".
Proof.
  destruct (escapeHtml_neutralises_markup "#home") as (_ & _ & _ & Hplain & _).
  split; [reflexivity|]. split; [reflexivity|]. split; [reflexivity|].
  split; [exact (Hplain eq_refl eq_refl eq_refl) | reflexivity].
Defined.

Lemma handleTaskSubmit_adds_task_witness :
  isValid (validateTask (getFormData (ui Sessions.filled))) = true
  /\ map text (tasks (handleTaskSubmit Samples.now Sessions.filled))
     = ["Buy milk"; "Write report"; "Laundry"; "Pay rent"; "Call Sam"].
Proof.
  split; [reflexivity|].
  destruct (handleTaskSubmit_adds_task (DR := utc_date) Samples.now Sessions.filled eq_refl)
    as (Htasks & _).
  rewrite Htasks. reflexivity.
Defined.

Lemma handleTaskToggle_effect_witness :
  ~ In "zz" (map id (tasks Samples.app))
  /\ handleTaskToggle Samples.now "zz" true Samples.app = Samples.app
  /\ find (id_is (Some "a1")) (tasks Samples.app) = Some Samples.report
  /\ exists before after task',
       tasks (handleTaskToggle Samples.now "a1" true Samples.app) = before ++ task' :: after
       /\ completed task' = true /\ priority task' = Medium.
Proof.
  destruct (handleTaskToggle_effect (DR := utc_date) Samples.now "zz" true Samples.app)
    as [Habsent _].
  destruct (handleTaskToggle_effect (DR := utc_date) Samples.now "a1" true Samples.app)
    as [_ Hpresent].
  assert (Hnot : ~ In "zz" (map id (tasks Samples.app)))
    by (simpl; intuition discriminate).
  split; [exact Hnot|]. split; [exact (Habsent Hnot)|]. split; [reflexivity|].
  destruct (Hpresent Samples.report eq_refl)
    as (before & after & task' & _ & Htasks & _ & Hdone & Hprio & _).
  exists before, after, task'. split; [exact Htasks|]. split; [exact Hdone|].
  rewrite Hprio. reflexivity.
Defined.

Lemma handleTaskDelete_effect_witness :
  ~ In "zz" (map id (tasks Samples.app))
  /\ tasks (handleTaskDelete Samples.now "zz" true Samples.app) = tasks Samples.app
  /\ notification (ui (handleTaskDelete Samples.now "zz" true Samples.app))
     = Some ("Task deleted successfully!", type_success).
Proof.
  destruct (handleTaskDelete_effect (DR := utc_date) Samples.now "zz" Samples.app)
    as (_ & _ & _ & _ & Habsent & _ & Hnote).
  assert (Hnot : ~ In "zz" (map id (tasks Samples.app)))
    by (simpl; intuition discriminate).
  split; [exact Hnot|]. split; [exact (Habsent Hnot) | exact Hnote].
Defined.

Lemma handleClearCompleted_effect_witness :
  count_if completed (tasks Samples.app) <> 0
  /\ handleClearCompleted Samples.now false Samples.app = Samples.app
  /\ map id (tasks (handleClearCompleted Samples.now true Samples.app)) = ["a1"; "a3"; "a4"]
  /\ count_if completed (tasks Sessions.filled) = 1.
Proof.
  destruct (handleClearCompleted_effect (DR := utc_date) Samples.now true Samples.app)
    as (_ & Hdeclined & Hcleared).
  assert (Hdone : count_if completed (tasks Samples.app) <> 0) by (vm_compute; discriminate).
  split; [exact Hdone|]. split; [exact (Hdeclined Hdone)|].
  destruct (Hcleared Hdone) as (Htasks & _). rewrite Htasks. split; reflexivity.
Defined.

Lemma report_ok : task_ok Samples.report.
Proof.
  unfold task_ok. simpl.
  split; [discriminate|]. split; [reflexivity|].
  split; [apply Nat.leb_le; reflexivity|].
  split; [right; reflexivity|].
  split; [repeat constructor; simpl; tauto|].
  split; [repeat constructor|].
  apply Nat.leb_le; reflexivity.
Defined.

Lemma edit_without_changes_keeps_task_witness :
  find (id_is (Some "a1")) (tasks Samples.app) = Some Samples.report
  /\ task_ok Samples.report
  /\ map text (tasks (handleEditSubmit Sessions.later (handleTaskEdit "a1" Samples.app)))
     = map text (tasks Samples.app)
  /\ exists before after task',
       tasks (handleEditSubmit Sessions.later (handleTaskEdit "a1" Samples.app))
       = before ++ task' :: after
       /\ tags task' = tags Samples.report.
Proof.
  split; [reflexivity|]. split; [exact report_ok|]. split; [reflexivity|].
  destruct (edit_without_changes_keeps_task (DR := utc_date) Sessions.later Samples.app
              "a1" Samples.report eq_refl report_ok)
    as (_ & _ & before & after & task' & _ & Htasks & _ & _ & Htags & _).
  exists before, after, task'. split; assumption.
Defined.


Lemma session_keeps_storage_in_sync_witness :
  Forall (fun wi => storage_writable (fst wi) = true) Sessions.shopping
  /\ stored_in_sync (run Sessions.shopping (init Samples.now None false Samples.page)).
Proof.
  assert (H : Forall (fun wi => storage_writable (fst wi) = true) Sessions.shopping)
    by (repeat constructor).
  split; [exact H|].
  exact (session_keeps_storage_in_sync (DR := utc_date) Sessions.shopping Samples.now
           None false Samples.page H).
Defined.

Lemma step_keeps_ids_distinct_witness :
  NoDup (map id (tasks Sessions.filled))
  /\ ~ In (generateId Samples.now) (map id (tasks Sessions.filled))
  /\ NoDup (map id (tasks (step Samples.now SubmitTask Sessions.filled))).
Proof.
  assert (Hnd : NoDup (map id (tasks Sessions.filled)))
    by (repeat constructor; simpl; intuition discriminate).
  assert (Hfresh : ~ In (generateId Samples.now) (map id (tasks Sessions.filled)))
    by (vm_compute; intuition discriminate).
  split; [exact Hnd|]. split; [exact Hfresh|].
  exact (step_keeps_ids_distinct (DR := utc_date) Samples.now SubmitTask Sessions.filled
           Hnd (fun _ => Hfresh)).
Defined.

Lemma filter_and_sort_commute_witness :
  forallb (comparable "dueDate") Samples.collection = true
  /\ sortTasks (filterTasksByTag Samples.collection (Some "#HOME")) "dueDate"
     = filterTasksByTag (sortTasks Samples.collection "dueDate") (Some "#HOME").
Proof.
  split; [reflexivity|].
  exact (filter_and_sort_commute (DR := utc_date) Samples.collection (Some "#HOME")
           "dueDate" eq_refl).
Defined.

Lemma viewing_and_failed_writes_witness :
  is_view_intent (ChangeSort "priority") = true
  /\ tasks (step Samples.now (ChangeSort "priority") Samples.app) = tasks Samples.app
  /\ storage_writable Sessions.offline = false
  /\ storage (step Sessions.offline SubmitTask Sessions.filled) = storage Sessions.filled
  /\ List.length (tasks (step Sessions.offline SubmitTask Sessions.filled)) = 5%nat.
Proof.
  destruct (viewing_and_failed_writes (DR := utc_date) Samples.now (ChangeSort "priority")
              Samples.app) as (Hview & _).
  destruct (viewing_and_failed_writes (DR := utc_date) Sessions.offline SubmitTask
              Sessions.filled) as (_ & Hfail & _).
  destruct (Hview eq_refl) as [Htasks _].
  split; [reflexivity|]. split; [exact Htasks|]. split; [reflexivity|].
  split; [exact (Hfail eq_refl) | reflexivity].
Defined.
